(** * Address sets of the OVN controller

    A shallow embedding of
    [go-controller/pkg/ovn/address_set/address_set.go]: the naming helpers,
    the per-family object [ovnAddressSet], the dual-stack handle
    [ovnAddressSets] and the factory's enumeration, run against an arbitrary
    northbound client whose calls are recorded in a trace.

    Conventions. A Go [error] that may be [nil] is an [option error]; a pair
    [(x, err)] of which one side is meaningful is a [result]. A method with
    a pointer receiver takes the object and returns the updated object next
    to its result. Logging ([klog]) has no effect on the state and is left
    out; the read-write lock of [ovnAddressSets] serialises callers, so one
    call is modelled as one uninterrupted run. *)

From Stdlib Require Import Ascii.
From stdpp Require Import gmap strings list fin_maps sorting.

#[local] Set Warnings "-clear-no-such-hyp".
Set Default Proof Using "Type".

(** ** Go's [strings] package, as far as the file uses it *)

Module strings.

(** [strings.HasSuffix(s, suffix)]:
    [len(s) >= len(suffix) && s[len(s)-len(suffix):] == suffix]. *)
Definition HasSuffix (s suffix : string) : bool :=
  (String.length suffix <=? String.length s) &&
  String.eqb
    (String.substring (String.length s - String.length suffix)
                      (String.length suffix) s)
    suffix.

(** [strings.TrimSuffix(s, suffix)]: [s[:len(s)-len(suffix)]] when [s] ends
    in [suffix], [s] otherwise. *)
Definition TrimSuffix (s suffix : string) : string :=
  if HasSuffix s suffix
  then String.substring 0 (String.length s - String.length suffix) s
  else s.

(** [strings.Split(s, sep)] for a non-empty separator: the pieces of [s]
    between the occurrences of [sep], scanned from the left. [skip] counts
    the bytes of a matched separator that are still to be passed over, and
    [cur] holds the piece being read, reversed. *)
Fixpoint Split_go (sep : string) (skip : nat) (cur : string) (s : string)
  : list string :=
  match s with
  | EmptyString => [String.rev cur]
  | String c s' =>
      match skip with
      | S k => Split_go sep k cur s'
      | O =>
          if String.prefix sep s
          then String.rev cur :: Split_go sep (String.length sep - 1) "" s'
          else Split_go sep 0 (String c cur) s'
      end
  end.

Definition Split (s sep : string) : list string := Split_go sep 0 "" s.

(** [strings.Join(elems, sep)]. *)
Definition Join (elems : list string) (sep : string) : string :=
  String.concat sep elems.

End strings.

(** ** Names *)

Definition ipv4AddressSetSuffix : string := "_v4".
Definition ipv6AddressSetSuffix : string := "_v6".

Definition MakeAddressSetName (name : string) : string * string :=
  (name +:+ ipv4AddressSetSuffix, name +:+ ipv6AddressSetSuffix).

Definition truncateSuffixFromAddressSet (asName : string) : string :=
  if strings.HasSuffix asName ipv4AddressSetSuffix
  then strings.TrimSuffix asName ipv4AddressSetSuffix
  else if strings.HasSuffix asName ipv6AddressSetSuffix
  then strings.TrimSuffix asName ipv6AddressSetSuffix
  else asName.

(** ** Errors *)

(** The error values the file sees or builds: the two sentinels of the
    client library, any other error of the client, [fmt.Errorf] around a
    cause (its format keeps the verb, [%v] or [%w]), and the value
    [errors.Wrapf] of [github.com/pkg/errors] builds around a non-nil
    cause, whose message is the formatted argument. *)
#[warnings="-register-all"]
Inductive error : Type :=
| ErrorNotFound
| ErrorSchema
| ClientError (msg : string)
| Errorf (format : string) (args : list string) (cause : error)
| withMessage (cause : error) (format : string) (arg : option error).

(** [err == goovn.ErrorNotFound] and [err == goovn.ErrorSchema]. *)
Definition isErrorNotFound (e : error) : bool :=
  match e with ErrorNotFound => true | _ => false end.

Definition isErrorSchema (e : error) : bool :=
  match e with ErrorSchema => true | _ => false end.

(** [errors.Wrapf(err, format, arg)]: "If err is nil, Wrapf returns nil." *)
Definition Wrapf (err : option error) (format : string) (arg : option error)
  : option error :=
  match err with
  | None => None
  | Some e => Some (withMessage e format arg)
  end.

Inductive result (A : Type) : Type :=
| Ok (a : A)
| Err (e : error).
Arguments Ok {A} a.
Arguments Err {A} e.

Definition isErr {A} (r : result A) : bool :=
  match r with Ok _ => false | Err _ => true end.

(** ** The northbound client *)

Module goovn.

(** A value of type [interface{}] as the enumeration reads it: a string, or
    something that is not a string. *)
Inductive iface : Type :=
| IString (s : string)
| IOther.

(** [goovn.AddressSet]. [ExternalID] is a [map[interface{}]interface{}];
    the file only looks up the string key ["name"], so the map is keyed by
    its string keys. *)
Record AddressSet : Type := {
  UUID : string;
  Name : string;
  Addresses : list string;
  ExternalID : gmap string iface;
}.

(** The methods of [goovn.Client] the file calls, over an opaque command
    type [Cmd] and a client state [St] the methods may read and change. *)
Record Client (Cmd St : Type) : Type := {
  ASGet : string → St → option error * St;
  ASList : St → (list AddressSet * option error) * St;
  ASAdd : string → list string → gmap string string → St → result Cmd * St;
  ASUpdate : string → list string → gmap string string → St → result Cmd * St;
  ASDel : string → St → result Cmd * St;
  Execute : Cmd → St → option error * St;
}.
Arguments ASGet {Cmd St} _ _ _.
Arguments ASList {Cmd St} _ _.
Arguments ASAdd {Cmd St} _ _ _ _ _.
Arguments ASUpdate {Cmd St} _ _ _ _ _.
Arguments ASDel {Cmd St} _ _ _.
Arguments Execute {Cmd St} _ _ _.

End goovn.

(** One call on the client, as the trace records it. *)
Inductive call (Cmd : Type) : Type :=
| CallASGet (name : string)
| CallASList
| CallASAdd (name : string) (addrs : list string) (ext : gmap string string)
| CallASUpdate (name : string) (addrs : list string) (ext : gmap string string)
| CallASDel (name : string)
| CallExecute (cmd : Cmd).
Arguments CallASGet {Cmd} name.
Arguments CallASList {Cmd}.
Arguments CallASAdd {Cmd} name addrs ext.
Arguments CallASUpdate {Cmd} name addrs ext.
Arguments CallASDel {Cmd} name.
Arguments CallExecute {Cmd} cmd.

Definition isCallASAdd {Cmd} (c : call Cmd) : bool :=
  match c with CallASAdd _ _ _ => true | _ => false end.

Definition isCallASUpdate {Cmd} (c : call Cmd) : bool :=
  match c with CallASUpdate _ _ _ => true | _ => false end.

(** The world a call runs in: the calls made so far, oldest first, and the
    client's state. *)
Record World (Cmd St : Type) : Type := {
  calls : list (call Cmd);
  nbState : St;
}.
Arguments calls {Cmd St} w.
Arguments nbState {Cmd St} w.
Arguments Build_World {Cmd St} calls nbState.

(** ** The state monad of the operations *)

Definition M (Cmd St A : Type) : Type := World Cmd St → A * World Cmd St.

Definition ret {Cmd St A} (a : A) : M Cmd St A := λ w, (a, w).

Definition bind {Cmd St A B} (m : M Cmd St A) (k : A → M Cmd St B)
  : M Cmd St B :=
  λ w, let '(a, w') := m w in k a w'.

Notation "'let*' x ':=' m 'in' k" := (bind m (fun x => k))
  (at level 10, x pattern, m at level 100, k at level 200).

(** ** Per-family objects and dual-stack handles *)

(** [ovnAddressSet]; its [nb] field is the client of the section below. A
    [nil] map reads like an empty one, and every write to [ips] goes to a
    map made afresh, so [as.ips = nil] is the empty map. *)
Record ovnAddressSet (IP : Type) : Type := {
  as_name : string;
  as_hashName : string;
  as_uuid : string;
  as_ips : gmap string IP;
}.
Arguments as_name {IP} _.
Arguments as_hashName {IP} _.
Arguments as_uuid {IP} _.
Arguments as_ips {IP} _.
Arguments Build_ovnAddressSet {IP} _ _ _ _.

(** [as.ips = m]. *)
Definition with_ips {IP} (as_ : ovnAddressSet IP) (m : gmap string IP)
  : ovnAddressSet IP :=
  {| as_name := as_name as_; as_hashName := as_hashName as_;
     as_uuid := as_uuid as_; as_ips := m |}.

(** [ovnAddressSets]: a [nil] family pointer is [None]. *)
Record ovnAddressSets (IP : Type) : Type := {
  ass_name : string;
  ipv4 : option (ovnAddressSet IP);
  ipv6 : option (ovnAddressSet IP);
}.
Arguments ass_name {IP} _.
Arguments ipv4 {IP} _.
Arguments ipv6 {IP} _.
Arguments Build_ovnAddressSets {IP} _ _ _.

(** The arguments of one call of the iterator function. *)
Record visit : Type := {
  visit_name : string;
  visit_namespace : string;
  visit_suffix : string;
}.

Definition asDetail {IP} (as_ : ovnAddressSet IP) : string :=
  as_uuid as_ +:+ "/" +:+ as_name as_ +:+ "/" +:+ as_hashName as_.

(** ** The operations *)

Section AddressSets.

Context {IP Cmd St : Type}.

(** [net.IP.String] and [utilnet.IsIPv6], of Go's and Kubernetes' libraries;
    [util.HashForOVN] and the two family switches of [config], of packages
    of the controller outside this file. *)
Variable IPString : IP → string.
Variable IsIPv6 : IP → bool.
Variable HashForOVN : string → string.
Variable IPv4Mode IPv6Mode : bool.

(** The order in which [range] walks a map is not specified by Go: it is
    some order of the map's entries. *)
Variable rangeIPs : gmap string IP → list (string * IP).

Variable nb : goovn.Client Cmd St.

#[local] Abbreviation M := (M Cmd St).
#[local] Abbreviation World := (World Cmd St).

(** *** Calls on the client, recorded *)

Definition record (c : call Cmd) (s : St) (w : World) : World :=
  {| calls := calls w ++ [c]; nbState := s |}.

Definition nb_ASGet (name : string) : M (option error) := λ w,
  let '(r, s) := goovn.ASGet nb name (nbState w) in
  (r, record (CallASGet name) s w).

Definition nb_ASList : M (list goovn.AddressSet * option error) := λ w,
  let '(r, s) := goovn.ASList nb (nbState w) in
  (r, record CallASList s w).

Definition nb_ASAdd (name : string) (addrs : list string)
    (ext : gmap string string) : M (result Cmd) := λ w,
  let '(r, s) := goovn.ASAdd nb name addrs ext (nbState w) in
  (r, record (CallASAdd name addrs ext) s w).

Definition nb_ASUpdate (name : string) (addrs : list string)
    (ext : gmap string string) : M (result Cmd) := λ w,
  let '(r, s) := goovn.ASUpdate nb name addrs ext (nbState w) in
  (r, record (CallASUpdate name addrs ext) s w).

Definition nb_ASDel (name : string) : M (result Cmd) := λ w,
  let '(r, s) := goovn.ASDel nb name (nbState w) in
  (r, record (CallASDel name) s w).

Definition nb_Execute (cmd : Cmd) : M (option error) := λ w,
  let '(r, s) := goovn.Execute nb cmd (nbState w) in
  (r, record (CallExecute cmd) s w).

(** *** Helpers *)

Definition hashedAddressSet (s : string) : string := HashForOVN s.

Definition MakeAddressSetHashNames (name : string) : string * string :=
  let '(ipv4AddressSetName, ipv6AddressSetName) := MakeAddressSetName name in
  (hashedAddressSet ipv4AddressSetName, hashedAddressSet ipv6AddressSetName).

(** The loop of [splitIPsByFamily]: both slices start [nil] and each IP is
    appended to one of them. *)
Definition splitIPsByFamily (ips : list IP) : list IP * list IP :=
  foldl (λ '(v4, v6) ip,
           if IsIPv6 ip then (v4, v6 ++ [ip]) else (v4 ++ [ip], v6))
        ([], []) ips.

Definition ipsToStringArray (ips : list IP) : list string :=
  foldl (λ out ip, out ++ [IPString ip]) [] ips.

(** [sort.Strings] orders by bytes; equal strings are indistinguishable, so
    any sorting algorithm gives the same slice. *)
Definition joinIPs (ips : list IP) : string :=
  let q := String "034"%char "" in
  let list := foldl (λ l ip, l ++ [q +:+ IPString ip +:+ q]) [] ips in
  strings.Join (merge_sort String.le list) " ".

Definition allIPs (as_ : ovnAddressSet IP) : list IP :=
  foldl (λ out kv, out ++ [kv.2]) [] (rangeIPs (as_ips as_)).

(** [for _, ip := range ips { m[ip.String()] = ip }]. *)
Definition insertIPs (m : gmap string IP) (ips : list IP) : gmap string IP :=
  foldl (λ m ip, <[IPString ip := ip]> m) m ips.

(** *** [ovnAddressSet] *)

Definition setIPs (as_ : ovnAddressSet IP) (ips : list IP)
  : M (option error * ovnAddressSet IP) :=
  let newIPs := ipsToStringArray ips in
  let* r := nb_ASUpdate (as_hashName as_) newIPs {[ "name" := as_name as_ ]} in
  match r with
  | Err err =>
      ret (Some (Errorf "failed to create update for address set %q: %v"
                        [asDetail as_] err), as_)
  | Ok cmd =>
      let* e := nb_Execute cmd in
      match e with
      | Some err =>
          ret (Some (Errorf "failed to execute update for address set %q: %v"
                            [asDetail as_] err), as_)
      | None => ret (None, with_ips as_ (insertIPs ∅ ips))
      end
  end.

Definition addIPs (as_ : ovnAddressSet IP) (ips : list IP)
  : M (option error * ovnAddressSet IP) :=
  let uniqIPs :=
    foldl (λ uniq ip,
             match as_ips as_ !! IPString ip with
             | Some _ => uniq
             | None => uniq ++ [ip]
             end) [] ips in
  if decide (length uniqIPs = 0) then ret (None, as_)
  else
    let ipStr := joinIPs uniqIPs in
    let newIPs := uniqIPs ++ allIPs as_ in
    let* (e, as') := setIPs as_ newIPs in
    match e with
    | Some err =>
        ret (Some (Errorf "failed to add IPs (%q) to address set %q: %v"
                          [ipStr; asDetail as_] err), as')
    | None => ret (None, as')
    end.

Definition deleteIPs (as_ : ovnAddressSet IP) (ips : list IP)
  : M (option error * ovnAddressSet IP) :=
  let newMap : gmap string IP :=
    foldl (λ m kv, <[kv.1 := kv.2]> m) ∅ (rangeIPs (as_ips as_)) in
  let '(_, newIPs) :=
    foldl (λ '((newMap, newIPs) : gmap string IP * list IP) ip,
             match newMap !! IPString ip with
             | Some _ => (delete (IPString ip) newMap, newIPs)
             | None => (newMap, newIPs ++ [ip])
             end) (newMap, []) ips in
  let ipStr := joinIPs newIPs in
  let* (e, as') := setIPs as_ newIPs in
  match e with
  | Some err =>
      ret (Some (Errorf "failed to delete IPs (%q) to address set %q: %v"
                        [ipStr; asDetail as_] err), as')
  | None => ret (None, as')
  end.

Definition destroy (as_ : ovnAddressSet IP)
  : M (option error * ovnAddressSet IP) :=
  let* r := nb_ASDel (as_hashName as_) in
  match r with
  | Err err =>
      ret (Some (Errorf "failed to create delete for address set %q: %v"
                        [asDetail as_] err), as_)
  | Ok cmd =>
      let* e := nb_Execute cmd in
      match e with
      | Some err =>
          ret (Some (Errorf "failed to destroy address set %q: %v"
                            [asDetail as_] err), as_)
      | None => ret (None, with_ips as_ ∅)
      end
  end.

Definition newOvnAddressSet (name : string) (ips : list IP)
  : M (result (ovnAddressSet IP)) :=
  let as_ := {| as_name := name; as_hashName := hashedAddressSet name;
                as_uuid := ""; as_ips := insertIPs ∅ ips |} in
  let* err := nb_ASGet (as_hashName as_) in
  match err with
  | Some err =>
      if negb (isErrorNotFound err) && negb (isErrorSchema err)
      then ret (Err (Errorf "failed to get address set %q: %v" [name] err))
      else
        let* r := nb_ASAdd (as_hashName as_) (ipsToStringArray ips)
                           {[ "name" := name ]} in
        match r with
        | Err err =>
            ret (Err (Errorf "failed to create address set %q: %v"
                             [name] err))
        | Ok cmd =>
            let* e := nb_Execute cmd in
            match e with
            | Some err =>
                ret (Err (Errorf "failed to create address set %q: %v"
                                 [asDetail as_] err))
            | None => ret (Ok as_)
            end
        end
  | None =>
      let* (e, as') := setIPs as_ ips in
      match e with
      | Some err => ret (Err err)
      | None => ret (Ok as')
      end
  end.

Definition newOvnAddressSets (name : string) (ips : list IP)
  : M (result (ovnAddressSets IP)) :=
  let '(v4IPs, v6IPs) := splitIPsByFamily ips in
  let '(ip4ASName, ip6ASName) := MakeAddressSetName name in
  let* r4 :=
    (if IPv4Mode
     then let* r := newOvnAddressSet ip4ASName v4IPs in
          match r with
          | Err err => ret (Err err)
          | Ok v4set => ret (Ok (Some v4set))
          end
     else ret (Ok None)) in
  match r4 with
  | Err err => ret (Err err)
  | Ok v4set =>
      let* r6 :=
        (if IPv6Mode
         then let* r := newOvnAddressSet ip6ASName v6IPs in
              match r with
              | Err err => ret (Err err)
              | Ok v6set => ret (Ok (Some v6set))
              end
         else ret (Ok None)) in
      match r6 with
      | Err err => ret (Err err)
      | Ok v6set =>
          ret (Ok {| ass_name := name; ipv4 := v4set; ipv6 := v6set |})
      end
  end.

(** *** [ovnAddressSets] *)

Definition GetASHashNames (as_ : ovnAddressSets IP) : string * string :=
  let ipv4AS := match ipv4 as_ with Some s => as_hashName s | None => "" end in
  let ipv6AS := match ipv6 as_ with Some s => as_hashName s | None => "" end in
  (ipv4AS, ipv6AS).

Definition GetName (as_ : ovnAddressSets IP) : string := ass_name as_.

Definition SetIPs (as_ : ovnAddressSets IP) (ips : list IP)
  : M (option error * ovnAddressSets IP) :=
  let '(v4ips, v6ips) := splitIPsByFamily ips in
  let* (err, v6) :=
    match ipv6 as_ with
    | Some s6 =>
        let* (e, s6') := setIPs s6 v6ips in ret (e, Some s6')
    | None => ret (None, None)
    end in
  let* (err, v4) :=
    match ipv4 as_ with
    | Some s4 =>
        let* (e, s4') := setIPs s4 v4ips in
        ret (Wrapf err "%v" e, Some s4')
    | None => ret (err, None)
    end in
  ret (err, {| ass_name := ass_name as_; ipv4 := v4; ipv6 := v6 |}).

Definition AddIPs (as_ : ovnAddressSets IP) (ips : list IP)
  : M (option error * ovnAddressSets IP) :=
  if decide (length ips = 0) then ret (None, as_)
  else
    let '(v4ips, v6ips) := splitIPsByFamily ips in
    let* (e6, v6) :=
      match ipv6 as_ with
      | Some s6 =>
          let* (e, s6') := addIPs s6 v6ips in ret (e, Some s6')
      | None => ret (None, None)
      end in
    match e6 with
    | Some err =>
        ret (Some (Errorf "failed to AddIPs to the v6 set: %w" [] err),
             {| ass_name := ass_name as_; ipv4 := ipv4 as_; ipv6 := v6 |})
    | None =>
        let* (e4, v4) :=
          match ipv4 as_ with
          | Some s4 =>
              let* (e, s4') := addIPs s4 v4ips in ret (e, Some s4')
          | None => ret (None, None)
          end in
        match e4 with
        | Some err =>
            ret (Some (Errorf "failed to AddIPs to the v4 set: %w" [] err),
                 {| ass_name := ass_name as_; ipv4 := v4; ipv6 := v6 |})
        | None =>
            ret (None, {| ass_name := ass_name as_; ipv4 := v4; ipv6 := v6 |})
        end
    end.

Definition DeleteIPs (as_ : ovnAddressSets IP) (ips : list IP)
  : M (option error * ovnAddressSets IP) :=
  if decide (length ips = 0) then ret (None, as_)
  else
    let '(v4ips, v6ips) := splitIPsByFamily ips in
    let* (e6, v6) :=
      match ipv6 as_ with
      | Some s6 =>
          let* (e, s6') := deleteIPs s6 v6ips in ret (e, Some s6')
      | None => ret (None, None)
      end in
    match e6 with
    | Some err =>
        ret (Some (Errorf "failed to AddIPs to the v6 set: %w" [] err),
             {| ass_name := ass_name as_; ipv4 := ipv4 as_; ipv6 := v6 |})
    | None =>
        let* (e4, v4) :=
          match ipv4 as_ with
          | Some s4 =>
              let* (e, s4') := deleteIPs s4 v4ips in ret (e, Some s4')
          | None => ret (None, None)
          end in
        match e4 with
        | Some err =>
            ret (Some (Errorf "failed to AddIPs to the v4 set: %w" [] err),
                 {| ass_name := ass_name as_; ipv4 := v4; ipv6 := v6 |})
        | None =>
            ret (None, {| ass_name := ass_name as_; ipv4 := v4; ipv6 := v6 |})
        end
    end.

Definition Destroy (as_ : ovnAddressSets IP)
  : M (option error * ovnAddressSets IP) :=
  let* (e4, v4) :=
    match ipv4 as_ with
    | Some s4 => let* (e, s4') := destroy s4 in ret (e, Some s4')
    | None => ret (None, None)
    end in
  match e4 with
  | Some err =>
      ret (Some err,
           {| ass_name := ass_name as_; ipv4 := v4; ipv6 := ipv6 as_ |})
  | None =>
      let* (e6, v6) :=
        match ipv6 as_ with
        | Some s6 => let* (e, s6') := destroy s6 in ret (e, Some s6')
        | None => ret (None, None)
        end in
      match e6 with
      | Some err =>
          ret (Some err, {| ass_name := ass_name as_; ipv4 := v4; ipv6 := v6 |})
      | None =>
          ret (None, {| ass_name := ass_name as_; ipv4 := v4; ipv6 := v6 |})
      end
  end.

(** *** The factory *)

Definition NewAddressSet (name : string) (ips : list IP)
  : M (result (ovnAddressSets IP)) :=
  let* res := newOvnAddressSets name ips in
  match res with
  | Err err => ret (Err err)
  | Ok res => ret (Ok res)
  end.

(** The loop of [ForEachAddressSet] from the record at the head of
    [addrSets] on: [processed] is [processedAddressSets], the result is the
    calls of [iteratorFn] the loop makes, in order. A [continue] goes on
    with the rest of the listing and a [break] ends the loop; the name is
    inserted into [processedAddressSets] on the one path that then breaks,
    so no later test reads it. *)
Fixpoint forEachLoop (processed : gset string)
    (addrSets : list goovn.AddressSet) : list visit :=
  match addrSets with
  | [] => []
  | set :: rest =>
      match goovn.ExternalID set !! "name" with
      | None => forEachLoop processed rest
      | Some nameI =>
          match nameI with
          | goovn.IOther => forEachLoop processed rest
          | goovn.IString name =>
              let addrSetName := truncateSuffixFromAddressSet name in
              if decide (addrSetName ∈ processed) then []
              else
                let names := strings.Split addrSetName "." in
                let addrSetNamespace := default "" (names !! 0) in
                let nameSuffix :=
                  if decide (2 ≤ length names)
                  then default "" (names !! 1) else "" in
                [ {| visit_name := addrSetName;
                     visit_namespace := addrSetNamespace;
                     visit_suffix := nameSuffix |} ]
          end
      end
  end.

(** [ForEachAddressSet]: the calls it makes of the iterator function, and
    its error. *)
Definition ForEachAddressSet : M (list visit * option error) :=
  let* (addrSets, err) := nb_ASList in
  match err with
  | Some e =>
      if negb (isErrorSchema e)
      then ret ([], Some (Errorf "error reading address sets: %v" [] e))
      else ret (forEachLoop ∅ addrSets, None)
  | None => ret (forEachLoop ∅ addrSets, None)
  end.

Definition destroyAddressSet (name : string) : M (option error) :=
  let hashName := hashedAddressSet name in
  let* r := nb_ASDel hashName in
  match r with
  | Err err =>
      ret (Some (Errorf "failed to create delete cmd for address set %q: %v"
                        [hashName] err))
  | Ok cmd =>
      let* e := nb_Execute cmd in
      match e with
      | Some err =>
          if negb (isErrorNotFound err)
          then ret (Some (Errorf "failed to destroy address set %q: %v"
                                 [hashName] err))
          else ret None
      | None => ret None
      end
  end.

Definition DestroyAddressSetInBackingStore (name : string)
  : M (option error) :=
  let* err := destroyAddressSet name in
  match err with
  | Some e => ret (Some e)
  | None =>
      let '(ip4ASName, ip6ASName) := MakeAddressSetName name in
      let* err := destroyAddressSet ip4ASName in
      match err with
      | Some e => ret (Some e)
      | None =>
          let* err := destroyAddressSet ip6ASName in
          match err with
          | Some e => ret (Some e)
          | None => ret None
          end
      end
  end.

End AddressSets.

(** ** An in-memory client, for running the operations *)

Module fake.

(** An address as the operations see it: its [String()] form and whether
    [utilnet.IsIPv6] holds of it. *)
Record IP : Type := { text : string; v6 : bool }.

Definition IPString (ip : IP) : string := text ip.
Definition IsIPv6 (ip : IP) : bool := v6 ip.

(** Modelled from the spec: [util.HashForOVN] is not part of this file; the
    spec asks of [Hash] that the same input always gives the same
    identifier, and this instance marks the name with a leading letter. *)
Definition HashForOVN (s : string) : string := "a" +:+ s.

Inductive Cmd : Type :=
| AddCmd (name : string) (addrs : list string) (ext : gmap string string)
| UpdateCmd (name : string) (addrs : list string) (ext : gmap string string)
| DelCmd (name : string).

(** The table of address sets in listing order, and the outcomes scripted
    for the coming [Execute] calls: [Some e] makes the call fail with [e]
    and leave the table alone; [None], or an exhausted script, lets the
    command run. *)
Record St : Type := {
  rows : list goovn.AddressSet;
  script : list (option error);
}.

Definition row (name : string) (addrs : list string)
    (ext : gmap string string) : goovn.AddressSet :=
  {| goovn.UUID := ""; goovn.Name := name; goovn.Addresses := addrs;
     goovn.ExternalID := goovn.IString <$> ext |}.

Definition has (name : string) (rs : list goovn.AddressSet) : bool :=
  existsb (λ r, String.eqb (goovn.Name r) name) rs.

Definition run (cmd : Cmd) (rs : list goovn.AddressSet)
  : option error * list goovn.AddressSet :=
  match cmd with
  | AddCmd name addrs ext => (None, rs ++ [row name addrs ext])
  | UpdateCmd name addrs ext =>
      if has name rs
      then (None, (λ r, if String.eqb (goovn.Name r) name
                        then row name addrs ext else r) <$> rs)
      else (Some ErrorNotFound, rs)
  | DelCmd name =>
      if has name rs
      then (None, filter (λ r, goovn.Name r ≠ name) rs)
      else (Some ErrorNotFound, rs)
  end.

Definition Execute (cmd : Cmd) (s : St) : option error * St :=
  match script s with
  | Some e :: rest => (Some e, {| rows := rows s; script := rest |})
  | None :: rest =>
      let '(e, rs) := run cmd (rows s) in (e, {| rows := rs; script := rest |})
  | [] =>
      let '(e, rs) := run cmd (rows s) in (e, {| rows := rs; script := [] |})
  end.

Definition nb : goovn.Client Cmd St :=
  {| goovn.ASGet name s :=
       (if has name (rows s) then None else Some ErrorNotFound, s);
     goovn.ASList s := ((rows s, None), s);
     goovn.ASAdd name addrs ext s := (Ok (AddCmd name addrs ext), s);
     goovn.ASUpdate name addrs ext s := (Ok (UpdateCmd name addrs ext), s);
     goovn.ASDel name s := (Ok (DelCmd name), s);
     goovn.Execute := Execute |}.

(** [range] over a map, in the order of the map's list of entries. *)
Definition rangeIPs (m : gmap string IP) : list (string * IP) :=
  map_to_list m.

Definition v4addr (s : string) : IP := {| text := s; v6 := false |}.
Definition v6addr (s : string) : IP := {| text := s; v6 := true |}.

(** A per-family object named [name] whose cache holds [ips]. *)
Definition family (name : string) (ips : list IP) : ovnAddressSet IP :=
  {| as_name := name; as_hashName := HashForOVN name; as_uuid := "";
     as_ips := insertIPs IPString ∅ ips |}.

(** A world with no call made yet. *)
Definition world (rs : list goovn.AddressSet) (sc : list (option error))
  : World Cmd St :=
  {| calls := []; nbState := {| rows := rs; script := sc |} |}.

End fake.

(** ** Vocabulary of the statements *)

Section Vocabulary.

Context {IP Cmd St : Type}.
Variable IPString : IP → string.
Variable nb : goovn.Client Cmd St.

(** The invariant of a cache: every key is the string form of its value.
    Every write to a cache is [m[ip.String()] = ip]. *)
Definition cache_wf (m : gmap string IP) : Prop :=
  ∀ k ip, m !! k = Some ip → IPString ip = k.

(** The IPs of a list that the cache does not hold yet. *)
Definition newSubset (m : gmap string IP) (ips : list IP) : list IP :=
  filter (λ ip, m !! IPString ip = None) ips.

(** What one replace adds to the trace: the build of the update and, when
    the build gave a command, its execution. *)
Definition replaceCalls (as_ : ovnAddressSet IP) (members : list string)
    (w : World Cmd St) : list (call Cmd) :=
  CallASUpdate (as_hashName as_) members {[ "name" := as_name as_ ]} ::
  match (goovn.ASUpdate nb (as_hashName as_) members
           {[ "name" := as_name as_ ]} (nbState w)).1 with
  | Ok cmd => [CallExecute cmd]
  | Err _ => []
  end.

(** Whether one replace with these members succeeds from this world. *)
Definition replaceSucceeds (as_ : ovnAddressSet IP) (members : list string)
    (w : World Cmd St) : bool :=
  let build := goovn.ASUpdate nb (as_hashName as_) members
                 {[ "name" := as_name as_ ]} (nbState w) in
  match build.1 with
  | Ok cmd =>
      match (goovn.Execute nb cmd build.2).1 with
      | None => true
      | Some _ => false
      end
  | Err _ => false
  end.

(** The state one replace with these members leaves the client in: the
    state after the execution when the build gave a command, the state
    after the build otherwise. *)
Definition replaceState (as_ : ovnAddressSet IP) (members : list string)
    (w : World Cmd St) : St :=
  let build := goovn.ASUpdate nb (as_hashName as_) members
                 {[ "name" := as_name as_ ]} (nbState w) in
  match build.1 with
  | Ok cmd => (goovn.Execute nb cmd build.2).2
  | Err _ => build.2
  end.

(** The error a dual-stack call returns for the error of a family. *)
Definition familyError (family : string) (e : option error) : option error :=
  match e with
  | Some err =>
      Some (Errorf ("failed to AddIPs to the " +:+ family +:+ " set: %w")
                   [] err)
  | None => None
  end.

(** The string under ["name"] of the first record of a listing that has
    one. *)
Fixpoint firstNamed (addrSets : list goovn.AddressSet) : option string :=
  match addrSets with
  | [] => None
  | set :: rest =>
      match goovn.ExternalID set !! "name" with
      | Some (goovn.IString name) => Some name
      | _ => firstNamed rest
      end
  end.

(** Whether a listing is not empty and its first record has a string under
    ["name"]. *)
Definition headNamed (addrSets : list goovn.AddressSet) : bool :=
  match addrSets with
  | [] => false
  | set :: _ =>
      match goovn.ExternalID set !! "name" with
      | Some (goovn.IString _) => true
      | _ => false
      end
  end.

(** The call of the iterator function for a record named [name]. *)
(** What the family operation [op] makes of the family object [o] of a
    handle when it is handed [ips] in the world [w]: the error, the object
    and the world of [op] when there is an object; no error, no object and
    the world as it was when there is none. *)
Definition onFamily
    (op : ovnAddressSet IP → list IP → M Cmd St (option error * ovnAddressSet IP))
    (o : option (ovnAddressSet IP)) (ips : list IP) (w : World Cmd St)
  : option error * option (ovnAddressSet IP) * World Cmd St :=
  match o with
  | Some s => ((op s ips w).1.1, Some (op s ips w).1.2, (op s ips w).2)
  | None => (None, None, w)
  end.

(** What the construction [new] gives for a family in the world [w]: its
    object or its error, and its world, when the family is enabled; no
    object and the world as it was when it is not. *)
Definition whenEnabled (enabled : bool)
    (new : M Cmd St (result (ovnAddressSet IP))) (w : World Cmd St)
  : result (option (ovnAddressSet IP)) * World Cmd St :=
  if enabled
  then (match (new w).1 with Ok s => Ok (Some s) | Err e => Err e end,
        (new w).2)
  else (Ok None, w).

Definition visitOf (name : string) : visit :=
  let addrSetName := truncateSuffixFromAddressSet name in
  let names := strings.Split addrSetName "." in
  {| visit_name := addrSetName;
     visit_namespace := default "" (names !! 0);
     visit_suffix := default "" (names !! 1) |}.

End Vocabulary.

(** ** Inputs of the runs *)

(** The metadata every command of a set carries. *)
Definition nameOf (name : string) : gmap string string := {[ "name" := name ]}.

(** A v4 object named ["ns_v4"] that caches 10.0.0.1 and 10.0.0.2, and a
    store that holds the same. *)
Definition v4TwoMembers : ovnAddressSet fake.IP :=
  fake.family "ns_v4" [fake.v4addr "10.0.0.1"; fake.v4addr "10.0.0.2"].

Definition storeTwoMembers : World fake.Cmd fake.St :=
  fake.world [fake.row "ans_v4" ["10.0.0.1"; "10.0.0.2"] (nameOf "ns_v4")] [].

(** A dual-stack handle named ["ns"] whose v4 object caches 10.0.0.1 and
    whose v6 object caches nothing, and a store that holds the same. *)
Definition v4One : ovnAddressSet fake.IP :=
  fake.family "ns_v4" [fake.v4addr "10.0.0.1"].

Definition v6None : ovnAddressSet fake.IP := fake.family "ns_v6" [].

Definition dualNs : ovnAddressSets fake.IP :=
  {| ass_name := "ns"; ipv4 := Some v4One; ipv6 := Some v6None |}.

(** A handle with the v4 object alone. *)
Definition v4OnlyNs : ovnAddressSets fake.IP :=
  {| ass_name := "ns"; ipv4 := Some v4One; ipv6 := None |}.

Definition dualRows : list goovn.AddressSet :=
  [fake.row "ans_v4" ["10.0.0.1"] (nameOf "ns_v4");
   fake.row "ans_v6" [] (nameOf "ns_v6")].

(** A listing whose first record has no ["name"] and whose second has. *)
Definition unnamedThenNamed : list goovn.AddressSet :=
  [ {| goovn.UUID := ""; goovn.Name := "other"; goovn.Addresses := [];
       goovn.ExternalID := ∅ |};
    fake.row "aa_v4" [] (nameOf "a_v4") ].

(** * Properties *)

(** ** Strings and names *)

Section string_facts.

Lemma app_String a (s t : string) : String a s +:+ t = String a (s +:+ t).
Proof. reflexivity. Qed.

Lemma length_app_string (s t : string) :
  String.length (s +:+ t) = String.length s + String.length t.
Proof.
  induction s as [|a s IH]; [reflexivity|].
  rewrite app_String. simpl. by rewrite IH.
Qed.

Lemma substring_all (t : string) :
  String.substring 0 (String.length t) t = t.
Proof. induction t as [|a t IH]; simpl; [done|by rewrite IH]. Qed.

Lemma substring_app_tail (s t : string) :
  String.substring (String.length s) (String.length t) (s +:+ t) = t.
Proof.
  induction s as [|a s IH]; [apply substring_all|].
  rewrite app_String. simpl. exact IH.
Qed.

Lemma substring_app_head (s t : string) :
  String.substring 0 (String.length s) (s +:+ t) = s.
Proof.
  induction s as [|a s IH].
  - by destruct t.
  - rewrite app_String. simpl. by rewrite IH.
Qed.

(** Cutting a string at a position inside it loses nothing. *)
Lemma substring_split (s : string) (n : nat) :
  n ≤ String.length s →
  s = String.substring 0 n s +:+ String.substring n (String.length s - n) s.
Proof.
  revert n. induction s as [|a s IH]; intros n Hn.
  - destruct n; [done|simpl in Hn; lia].
  - destruct n as [|n].
    + simpl. by rewrite substring_all.
    + simpl in Hn. simpl. rewrite app_String. f_equal. apply IH. lia.
Qed.

Lemma HasSuffix_app (s t : string) : strings.HasSuffix (s +:+ t) t = true.
Proof.
  unfold strings.HasSuffix. rewrite length_app_string.
  replace (String.length s + String.length t - String.length t)
    with (String.length s) by lia.
  rewrite substring_app_tail, String.eqb_refl, andb_true_r.
  apply Nat.leb_le. lia.
Qed.

(** [HasSuffix] holds exactly of the strings that end in the suffix. *)
Lemma HasSuffix_true (s t : string) :
  strings.HasSuffix s t = true ↔ ∃ p, s = p +:+ t.
Proof.
  split.
  - unfold strings.HasSuffix. intros [Hle Heq]%andb_true_iff.
    apply Nat.leb_le in Hle. apply String.eqb_eq in Heq.
    exists (String.substring 0 (String.length s - String.length t) s).
    assert (Hs := substring_split s (String.length s - String.length t)
                    ltac:(lia)).
    replace (String.length s - (String.length s - String.length t))
      with (String.length t) in Hs by lia.
    by rewrite Heq in Hs.
  - intros [p ->]. apply HasSuffix_app.
Qed.

Lemma TrimSuffix_app (s t : string) : strings.TrimSuffix (s +:+ t) t = s.
Proof.
  unfold strings.TrimSuffix. rewrite HasSuffix_app, length_app_string.
  replace (String.length s + String.length t - String.length t)
    with (String.length s) by lia.
  apply substring_app_head.
Qed.

(** A string that ends in [t] does not end in a different string of the
    same length. *)
Lemma HasSuffix_app_other (s t u : string) :
  String.length u = String.length t → u ≠ t →
  strings.HasSuffix (s +:+ t) u = false.
Proof.
  intros Hlen Hne. unfold strings.HasSuffix.
  rewrite length_app_string, Hlen.
  replace (String.length s + String.length t - String.length t)
    with (String.length s) by lia.
  rewrite substring_app_tail.
  apply andb_false_iff. right. apply String.eqb_neq. congruence.
Qed.

End string_facts.

(** C9. For every logical name [n] the two family names are [n] followed by
    ["_v4"] and by ["_v6"], they differ, [truncateSuffixFromAddressSet]
    gives [n] back from either of them, and a name that ends in neither
    suffix is returned as it is. *)
Theorem C9_family_names_and_truncation (n s : string) :
  MakeAddressSetName n = (n +:+ "_v4", n +:+ "_v6") ∧
  (MakeAddressSetName n).1 ≠ (MakeAddressSetName n).2 ∧
  truncateSuffixFromAddressSet (MakeAddressSetName n).1 = n ∧
  truncateSuffixFromAddressSet (MakeAddressSetName n).2 = n ∧
  ((∀ p, s ≠ p +:+ "_v4") → (∀ p, s ≠ p +:+ "_v6") →
   truncateSuffixFromAddressSet s = s).
Proof.
  unfold MakeAddressSetName, ipv4AddressSetSuffix, ipv6AddressSetSuffix.
  simpl. split_and!.
  - done.
  - intros Heq. by apply (inj (String.app n)) in Heq.
  - unfold truncateSuffixFromAddressSet, ipv4AddressSetSuffix.
    by rewrite HasSuffix_app, TrimSuffix_app.
  - unfold truncateSuffixFromAddressSet, ipv4AddressSetSuffix,
      ipv6AddressSetSuffix.
    rewrite HasSuffix_app_other by done.
    by rewrite HasSuffix_app, TrimSuffix_app.
  - intros H4 H6. unfold truncateSuffixFromAddressSet,
      ipv4AddressSetSuffix, ipv6AddressSetSuffix.
    destruct (strings.HasSuffix s "_v4") eqn:E4.
    { apply HasSuffix_true in E4 as [p ->]. by destruct (H4 p). }
    destruct (strings.HasSuffix s "_v6") eqn:E6; [|done].
    apply HasSuffix_true in E6 as [p ->]. by destruct (H6 p).
Qed.

(** ** Loops that append *)

Section loops.

Context {A B : Type}.

Lemma foldl_snoc_map (f : A → B) (acc : list B) (l : list A) :
  foldl (λ out x, out ++ [f x]) acc l = acc ++ (f <$> l).
Proof.
  revert acc. induction l as [|x l IH]; intros acc; simpl.
  - by rewrite app_nil_r.
  - by rewrite IH, <- app_assoc.
Qed.

Lemma foldl_snoc_filter (P : A → Prop) `{!∀ x, Decision (P x)}
    (acc : list A) (l : list A) :
  foldl (λ out x, if decide (P x) then out ++ [x] else out) acc l
  = acc ++ filter P l.
Proof.
  revert acc. induction l as [|x l IH]; intros acc; simpl.
  - by rewrite app_nil_r.
  - rewrite IH, filter_cons. destruct (decide (P x)); [|done].
    by rewrite <- app_assoc.
Qed.

End loops.

(** ** The operations, against any client *)

Section AddressSetsFacts.

Context {IP Cmd St : Type}.
Variable IPString : IP → string.

#[local] Abbreviation ipsToStringArray := (ipsToStringArray IPString).
#[local] Abbreviation insertIPs := (insertIPs IPString).
#[local] Abbreviation cache_wf := (cache_wf IPString).
#[local] Abbreviation newSubset := (newSubset IPString).

(** *** The cache *)

Lemma ipsToStringArray_fmap (ips : list IP) :
  ipsToStringArray ips = IPString <$> ips.
Proof. unfold ipsToStringArray. by rewrite foldl_snoc_map. Qed.

Lemma insertIPs_cons (m : gmap string IP) ip ips :
  insertIPs m (ip :: ips) = insertIPs (<[IPString ip := ip]> m) ips.
Proof. reflexivity. Qed.

Lemma insertIPs_app (m : gmap string IP) ips1 ips2 :
  insertIPs m (ips1 ++ ips2) = insertIPs (insertIPs m ips1) ips2.
Proof. unfold insertIPs. by rewrite foldl_app. Qed.

Lemma dom_insertIPs (m : gmap string IP) ips :
  dom (insertIPs m ips) = dom m ∪ list_to_set (IPString <$> ips).
Proof.
  revert m. induction ips as [|ip ips IH]; intros m.
  - simpl. set_solver.
  - rewrite insertIPs_cons, IH, dom_insert_L. simpl. set_solver.
Qed.

Lemma insertIPs_lookup (m : gmap string IP) ips k ip :
  insertIPs m ips !! k = Some ip →
  (ip ∈ ips ∧ IPString ip = k) ∨ m !! k = Some ip.
Proof.
  revert m. induction ips as [|x ips IH]; intros m; [by right|].
  rewrite insertIPs_cons. intros [[Hin Hk]|Hm]%IH.
  - left. split; [by right|done].
  - destruct (decide (IPString x = k)) as [<-|Hne].
    + rewrite lookup_insert_eq in Hm. injection Hm as ->.
      left. split; [by left|done].
    + rewrite lookup_insert_ne in Hm by done. by right.
Qed.

Lemma insertIPs_wf (m : gmap string IP) ips :
  cache_wf m → cache_wf (insertIPs m ips).
Proof.
  intros Hm k ip [[_ Hk]|Hk]%insertIPs_lookup; [done|by apply Hm].
Qed.

Lemma cache_wf_empty : cache_wf ∅.
Proof. intros k ip. by rewrite lookup_empty. Qed.

(** Writing a list of IPs whose keys are new leaves the old entries. *)
Lemma insertIPs_union (m : gmap string IP) ips :
  Forall (λ ip, m !! IPString ip = None) ips →
  insertIPs m ips = m ∪ insertIPs ∅ ips.
Proof.
  intros Hnew. apply map_eq. intros k.
  destruct (m !! k) as [v|] eqn:Hk.
  - rewrite (lookup_union_Some_l _ _ _ _ Hk).
    assert (Hnot : ∀ m', m' !! k = Some v →
              insertIPs m' ips !! k = Some v).
    { revert Hnew. induction ips as [|x ips IH]; [done|].
      intros Hx m' Hm'. apply Forall_cons in Hx as [Hx Hxs].
      rewrite insertIPs_cons. apply IH; [done|].
      rewrite lookup_insert_ne; [done|]. intros <-. congruence. }
    by apply Hnot.
  - rewrite lookup_union_r by done.
    clear Hnew.
    assert (Hgen : ∀ m1 m2 : gmap string IP, m1 !! k = m2 !! k →
              insertIPs m1 ips !! k = insertIPs m2 ips !! k).
    { induction ips as [|x ips IH]; [done|]. intros m1 m2 H12.
      rewrite !insertIPs_cons. apply IH.
      destruct (decide (IPString x = k)) as [<-|Hne].
      - by rewrite !lookup_insert_eq.
      - by rewrite !lookup_insert_ne. }
    apply Hgen. by rewrite Hk, lookup_empty.
Qed.

(** *** [setIPs] *)

Variable nb : goovn.Client Cmd St.

#[local] Abbreviation setIPs := (setIPs IPString nb).
#[local] Abbreviation replaceCalls := (replaceCalls nb).
#[local] Abbreviation replaceSucceeds := (replaceSucceeds nb).
#[local] Abbreviation replaceState := (replaceState nb).
#[local] Abbreviation destroy := (destroy nb).
#[local] Abbreviation ForEachAddressSet := (ForEachAddressSet nb).

Ltac run :=
  unfold bind, ret, nb_ASGet, nb_ASList, nb_ASAdd, nb_ASUpdate, nb_ASDel,
    nb_Execute, record; simpl.

Lemma setIPs_run (as_ : ovnAddressSet IP) (ips : list IP) (w : World Cmd St) :
  let out := setIPs as_ ips w in
  calls out.2 = calls w ++ replaceCalls as_ (IPString <$> ips) w ∧
  if replaceSucceeds as_ (IPString <$> ips) w
  then out.1 = (None, with_ips as_ (insertIPs ∅ ips))
  else is_Some out.1.1 ∧ out.1.2 = as_.
Proof.
  unfold setIPs, replaceCalls, replaceSucceeds.
  rewrite ipsToStringArray_fmap. run.
  destruct (goovn.ASUpdate nb _ _ _ _) as [[cmd|e] s1]; simpl; [|by eauto].
  destruct (goovn.Execute nb cmd s1) as [[e|] s2]; simpl.
  - rewrite <- app_assoc. by eauto.
  - by rewrite <- app_assoc.
Qed.

Lemma setIPs_state (as_ : ovnAddressSet IP) (ips : list IP)
    (w : World Cmd St) :
  nbState (setIPs as_ ips w).2 = replaceState as_ (IPString <$> ips) w.
Proof.
  unfold setIPs, replaceState. rewrite ipsToStringArray_fmap. run.
  destruct (goovn.ASUpdate nb _ _ _ _) as [[cmd|e] s1]; simpl; [|done].
  by destruct (goovn.Execute nb cmd s1) as [[e|] s2].
Qed.

(** C7. [setIPs] either fails and leaves the object, hence its cache, as it
    was (when the build of the update fails, and when its execution
    fails), or succeeds and makes the cache the map written from the new
    IPs alone: its keys are the string forms of the new IPs and every entry
    is one of the new IPs under its own string form. *)
Theorem C7_setIPs_atomic (as_ : ovnAddressSet IP) (ips : list IP)
    (w : World Cmd St) :
  let build := goovn.ASUpdate nb (as_hashName as_) (IPString <$> ips)
                 {[ "name" := as_name as_ ]} (nbState w) in
  let out := setIPs as_ ips w in
  match build.1 with
  | Err _ => is_Some out.1.1 ∧ as_ips out.1.2 = as_ips as_
  | Ok cmd =>
      match (goovn.Execute nb cmd build.2).1 with
      | Some _ => is_Some out.1.1 ∧ as_ips out.1.2 = as_ips as_
      | None =>
          out.1.1 = None ∧
          as_ips out.1.2 = insertIPs ∅ ips ∧
          dom (as_ips out.1.2) = list_to_set (IPString <$> ips) ∧
          ∀ k ip, as_ips out.1.2 !! k = Some ip → ip ∈ ips ∧ IPString ip = k
      end
  end.
Proof.
  intros build out.
  destruct (setIPs_run as_ ips w) as [_ Hrun]. fold out in Hrun.
  unfold replaceSucceeds in Hrun. fold build in Hrun. simpl in Hrun.
  destruct build.1 as [cmd|e].
  - destruct (goovn.Execute nb cmd build.2).1 as [e|].
    + destruct Hrun as [? ->]. done.
    + rewrite Hrun. simpl. split_and!; [done|done| |].
      * rewrite dom_insertIPs, dom_empty_L. set_solver.
      * intros k ip [?|Hk]%insertIPs_lookup; [done|].
        by rewrite lookup_empty in Hk.
  - destruct Hrun as [? ->]. done.
Qed.

(** *** [destroy] *)

(** [destroy] fails on every error of the build and on every error of the
    execution, not-found included, and then leaves the object as it was;
    only when both succeed does it empty the cache. *)
Lemma destroy_run (as_ : ovnAddressSet IP) (w : World Cmd St) :
  let del := goovn.ASDel nb (as_hashName as_) (nbState w) in
  let out := destroy as_ w in
  match del.1 with
  | Err _ =>
      calls out.2 = calls w ++ [CallASDel (as_hashName as_)] ∧
      is_Some out.1.1 ∧ out.1.2 = as_
  | Ok cmd =>
      calls out.2
      = calls w ++ [CallASDel (as_hashName as_); CallExecute cmd] ∧
      match (goovn.Execute nb cmd del.2).1 with
      | Some _ => is_Some out.1.1 ∧ out.1.2 = as_
      | None => out.1.1 = None ∧ as_ips out.1.2 = ∅
      end
  end.
Proof.
  unfold destroy. run.
  destruct (goovn.ASDel nb _ _) as [[cmd|e] s1]; simpl; [|by eauto].
  destruct (goovn.Execute nb cmd s1) as [[e|] s2]; simpl;
    rewrite <- app_assoc; by eauto.
Qed.

(** *** [addIPs] *)

Variable rangeIPs : gmap string IP → list (string * IP).
Hypothesis rangeIPs_perm : ∀ m, rangeIPs m ≡ₚ map_to_list m.

#[local] Abbreviation allIPs := (allIPs rangeIPs).
#[local] Abbreviation addIPs := (addIPs IPString rangeIPs nb).
#[local] Abbreviation deleteIPs := (deleteIPs IPString rangeIPs nb).

Lemma uniqIPs_filter (m : gmap string IP) (acc ips : list IP) :
  foldl (λ uniq ip,
           match m !! IPString ip with
           | Some _ => uniq
           | None => uniq ++ [ip]
           end) acc ips
  = acc ++ newSubset m ips.
Proof.
  unfold newSubset. revert acc.
  induction ips as [|ip ips IH]; intros acc; simpl.
  - by rewrite app_nil_r.
  - rewrite IH, filter_cons.
    destruct (m !! IPString ip) eqn:E; case_decide; try done.
    by rewrite <- app_assoc.
Qed.

Lemma allIPs_values (as_ : ovnAddressSet IP) :
  allIPs as_ = (rangeIPs (as_ips as_)).*2.
Proof. unfold allIPs. by rewrite foldl_snoc_map. Qed.

Lemma insertIPs_values (l : list (string * IP)) (m0 : gmap string IP) :
  NoDup l.*1 → Forall (λ kv, IPString kv.2 = kv.1) l →
  insertIPs m0 l.*2 = list_to_map l ∪ m0.
Proof.
  revert m0. induction l as [|[k v] l IH]; intros m0 Hnd Hkeys.
  - simpl. by rewrite (left_id_L ∅ (∪)).
  - apply NoDup_cons in Hnd as [Hk Hnd].
    apply Forall_cons in Hkeys as [Hv Hkeys]. simpl in Hv.
    rewrite fmap_cons, insertIPs_cons, IH by done. simpl. rewrite Hv.
    rewrite <- insert_union_l, insert_union_r; [done|].
    by apply not_elem_of_list_to_map_1.
Qed.

(** Writing back the values a [range] over a well-formed cache yields
    rebuilds the cache, whatever the order. *)
Lemma insertIPs_allIPs (as_ : ovnAddressSet IP) (m0 : gmap string IP) :
  cache_wf (as_ips as_) →
  insertIPs m0 (allIPs as_) = as_ips as_ ∪ m0.
Proof using rangeIPs_perm.
  intros Hwf. rewrite allIPs_values, insertIPs_values.
  - f_equal. rewrite <- (list_to_map_to_list (as_ips as_)) at 2.
    apply list_to_map_proper; [|apply rangeIPs_perm].
    rewrite rangeIPs_perm. apply NoDup_fst_map_to_list.
  - rewrite rangeIPs_perm. apply NoDup_fst_map_to_list.
  - apply Forall_forall. intros [k v] Hin. simpl. apply Hwf.
    apply elem_of_map_to_list. by rewrite <- rangeIPs_perm.
Qed.

Lemma newSubset_nil (m : gmap string IP) (ips : list IP) :
  newSubset m ips = [] ↔ list_to_set (IPString <$> ips) ⊆ dom m.
Proof.
  unfold newSubset. split.
  - intros Hnil s [ip [-> Hin]]%elem_of_list_to_set%list_elem_of_fmap.
    apply elem_of_dom. destruct (m !! IPString ip) eqn:E; [done|].
    by destruct (filter_nil_not_elem_of _ _ ip Hnil E).
  - intros Hsub. induction ips as [|ip ips IH]; [done|].
    rewrite filter_cons. case_decide as Hnone.
    + assert (IPString ip ∈ dom m) as [? ?]%elem_of_dom; [|congruence].
      apply Hsub. rewrite fmap_cons. apply elem_of_list_to_set. by left.
    + apply IH. intros s Hs%elem_of_list_to_set. apply Hsub.
      rewrite fmap_cons. apply elem_of_list_to_set. by right.
Qed.

Lemma newSubset_strings (m : gmap string IP) (ips : list IP) :
  dom m ∪ list_to_set (IPString <$> newSubset m ips)
  = dom m ∪ list_to_set (IPString <$> ips).
Proof.
  apply set_eq. intros s. rewrite !elem_of_union, !elem_of_list_to_set,
    !list_elem_of_fmap. unfold newSubset. split.
  - intros [?|[ip [-> [_ Hin]%list_elem_of_filter]]]; [by left|].
    right. eauto.
  - intros [?|[ip [-> Hin]]]; [by left|].
    destruct (m !! IPString ip) eqn:E.
    + left. by apply elem_of_dom.
    + right. exists ip. split; [done|]. by apply list_elem_of_filter.
Qed.

(** C6. On a well-formed cache, [addIPs] with IPs whose string forms are all
    keys of the cache returns no error and leaves the object and the world,
    hence the trace, as they were. Otherwise it makes the calls of exactly
    one replace and leaves the client in the state of that replace; the
    members the replace carries are the string forms of the new subset
    followed by those of the cached IPs, as a set the keys of the cache
    together with the string forms of the given IPs. When that replace
    succeeds, [addIPs] returns no error and the object is the old one with
    the cache extended by the new subset, whose keys are that union; when
    the replace fails, [addIPs] returns an error and the object is as it
    was. *)
Theorem C6_addIPs_noop_or_one_replace (as_ : ovnAddressSet IP)
    (ips : list IP) (w : World Cmd St) :
  cache_wf (as_ips as_) →
  let out := addIPs as_ ips w in
  let strs : gset string := list_to_set (IPString <$> ips) in
  let new := newSubset (as_ips as_) ips in
  let members := IPString <$> (new ++ allIPs as_) in
  (strs ⊆ dom (as_ips as_) → out = (None, as_, w)) ∧
  (strs ⊈ dom (as_ips as_) →
   calls out.2 = calls w ++ replaceCalls as_ members w ∧
   length (filter (λ c, isCallASUpdate c) (replaceCalls as_ members w)) = 1 ∧
   nbState out.2 = replaceState as_ members w ∧
   list_to_set members = dom (as_ips as_) ∪ strs ∧
   if replaceSucceeds as_ members w
   then out.1.1 = None ∧
        out.1.2 = with_ips as_ (as_ips as_ ∪ insertIPs ∅ new) ∧
        dom (as_ips out.1.2) = dom (as_ips as_) ∪ strs
   else is_Some out.1.1 ∧ out.1.2 = as_).
Proof using rangeIPs_perm.
  intros Hwf out strs new members. subst out strs members. unfold addIPs.
  rewrite uniqIPs_filter, app_nil_l. fold new.
  pose proof (newSubset_nil (as_ips as_) ips) as Hnil. fold new in Hnil.
  destruct (decide (length new = 0)) as [Hlen|Hlen].
  { apply nil_length_inv in Hlen. split; [done|].
    intros Hsub. destruct Hsub. by apply Hnil. }
  split.
  { intros Hsub. apply Hnil in Hsub. by rewrite Hsub in Hlen. }
  intros _.
  pose proof (setIPs_run as_ (new ++ allIPs as_) w) as [Hcalls Hres].
  pose proof (setIPs_state as_ (new ++ allIPs as_) w) as Hstate.
  unfold bind, ret.
  destruct (setIPs as_ (new ++ allIPs as_) w) as [[e as'] w'].
  simpl in Hcalls, Hres, Hstate.
  assert (Hcache : insertIPs ∅ (new ++ allIPs as_)
                   = as_ips as_ ∪ insertIPs ∅ new).
  { by rewrite insertIPs_app, insertIPs_allIPs. }
  assert (Hdom : dom (insertIPs ∅ (new ++ allIPs as_))
                 = dom (as_ips as_) ∪ list_to_set (IPString <$> ips)).
  { rewrite Hcache, dom_union_L, dom_insertIPs, dom_empty_L,
      (left_id_L ∅ (∪)). apply newSubset_strings. }
  assert (Hmem : list_to_set (IPString <$> (new ++ allIPs as_))
                 =@{gset string}
                 dom (as_ips as_) ∪ list_to_set (IPString <$> ips)).
  { by rewrite <- Hdom, dom_insertIPs, dom_empty_L, (left_id_L ∅ (∪)). }
  split; [by destruct e|]. split.
  { unfold replaceCalls. simpl. by destruct (goovn.ASUpdate nb _ _ _ _).1. }
  split; [by destruct e|]. split; [exact Hmem|].
  destruct (replaceSucceeds as_ _ w).
  - injection Hres as -> ->. simpl. rewrite <- Hcache. split; [done|].
    split; [done|]. exact Hdom.
  - destruct Hres as [[e' ->] ->]. simpl. by eauto.
Qed.

(** *** Dual-stack handles *)

Variable IsIPv6 : IP → bool.

#[local] Abbreviation splitIPsByFamily := (splitIPsByFamily IsIPv6).
#[local] Abbreviation SetIPs := (SetIPs IPString IsIPv6 nb).
#[local] Abbreviation AddIPs := (AddIPs IPString IsIPv6 rangeIPs nb).
#[local] Abbreviation DeleteIPs := (DeleteIPs IPString IsIPv6 rangeIPs nb).

(** *** Splitting by family *)

(** Closes a case in which the two tests on [IsIPv6] disagree. *)
Ltac by_family :=
  exfalso;
  match goal with
  | H : ¬ Is_true true |- _ => apply H; exact I
  | H : Is_true false |- _ => exact H
  | H : ¬ ¬ Is_true false |- _ => apply H; intros []
  end.

Lemma splitIPsByFamily_acc (v4 v6 ips : list IP) :
  foldl (λ '(v4, v6) ip,
           if IsIPv6 ip then (v4, v6 ++ [ip]) else (v4 ++ [ip], v6))
        (v4, v6) ips
  = (v4 ++ filter (λ ip, ¬ IsIPv6 ip) ips, v6 ++ filter (λ ip, IsIPv6 ip) ips).
Proof.
  revert v4 v6. induction ips as [|ip ips IH]; intros v4 v6; simpl.
  - by rewrite !app_nil_r.
  - rewrite !filter_cons.
    destruct (IsIPv6 ip) eqn:E; rewrite IH; repeat case_decide;
      try (by rewrite <- app_assoc); by_family.
Qed.

(** [splitIPsByFamily] returns, in the input's order, the IPs that
    [IsIPv6] rejects and the IPs it accepts: the two slices together are a
    rearrangement of the input, an IP is in the v6 slice exactly when it is
    in the input and [IsIPv6] holds of it, in the v4 slice exactly when it
    is in the input and [IsIPv6] does not, and never in both. *)
Lemma splitIPsByFamily_partition (ips : list IP) :
  splitIPsByFamily ips
  = (filter (λ ip, ¬ IsIPv6 ip) ips, filter (λ ip, IsIPv6 ip) ips) ∧
  (splitIPsByFamily ips).1 ++ (splitIPsByFamily ips).2 ≡ₚ ips ∧
  length (splitIPsByFamily ips).1 + length (splitIPsByFamily ips).2
  = length ips ∧
  ∀ ip,
    (ip ∈ (splitIPsByFamily ips).2 ↔ ip ∈ ips ∧ IsIPv6 ip = true) ∧
    (ip ∈ (splitIPsByFamily ips).1 ↔ ip ∈ ips ∧ IsIPv6 ip = false) ∧
    ¬ (ip ∈ (splitIPsByFamily ips).1 ∧ ip ∈ (splitIPsByFamily ips).2).
Proof.
  assert (Heq : splitIPsByFamily ips
    = (filter (λ ip, ¬ IsIPv6 ip) ips, filter (λ ip, IsIPv6 ip) ips)).
  { unfold splitIPsByFamily. by rewrite splitIPsByFamily_acc. }
  assert (Hperm : filter (λ ip, ¬ IsIPv6 ip) ips
                    ++ filter (λ ip, IsIPv6 ip) ips ≡ₚ ips).
  { clear Heq. induction ips as [|ip ips IH]; [done|].
    rewrite !filter_cons.
    destruct (IsIPv6 ip) eqn:E; repeat case_decide; try by_family.
    - by rewrite <- Permutation_middle, IH.
    - simpl. by rewrite IH. }
  rewrite Heq. simpl. split_and!; [done|done| |].
  - by rewrite <- length_app, Hperm.
  - intros ip. rewrite !list_elem_of_filter. clear.
    destruct (IsIPv6 ip); simpl; intuition congruence.
Qed.


(** *** [SetIPs] *)

(** When the v6 replace of [SetIPs] returns no error, so does [SetIPs],
    whatever the v4 replace returned: [Wrapf] of a [nil] error is [nil]. *)
Lemma SetIPs_nil_when_v6_succeeds (as_ : ovnAddressSets IP)
    (s6 : ovnAddressSet IP) (ips : list IP) (w : World Cmd St) :
  ipv6 as_ = Some s6 →
  (setIPs s6 (splitIPsByFamily ips).2 w).1.1 = None →
  (SetIPs as_ ips w).1.1 = None.
Proof.
  intros H6. unfold SetIPs.
  destruct (splitIPsByFamily ips) as [v4ips v6ips]. simpl.
  rewrite H6. unfold bind, ret.
  destruct (setIPs s6 v6ips w) as [[e6 s6'] w6]. simpl.
  intros ->. destruct (ipv4 as_) as [s4|]; [|done].
  by destruct (setIPs s4 v4ips w6) as [[e4 s4'] w4].
Qed.

(** When the v6 replace fails, [SetIPs] still runs the v4 replace, from the
    world the v6 replace left, and returns an error. *)
Lemma SetIPs_error_when_v6_fails (as_ : ovnAddressSets IP)
    (s4 s6 : ovnAddressSet IP) (ips : list IP) (w : World Cmd St) :
  ipv4 as_ = Some s4 → ipv6 as_ = Some s6 →
  let out6 := setIPs s6 (splitIPsByFamily ips).2 w in
  let out4 := setIPs s4 (splitIPsByFamily ips).1 out6.2 in
  is_Some out6.1.1 →
  is_Some (SetIPs as_ ips w).1.1 ∧ (SetIPs as_ ips w).2 = out4.2.
Proof.
  intros H4 H6. unfold SetIPs.
  destruct (splitIPsByFamily ips) as [v4ips v6ips]. simpl.
  rewrite H4, H6. unfold bind, ret.
  destruct (setIPs s6 v6ips w) as [[e6 s6'] w6]. simpl.
  intros [e ->].
  destruct (setIPs s4 v4ips w6) as [[e4 s4'] w4]. simpl. by eauto.
Qed.

(** *** [AddIPs] and [DeleteIPs] *)

(** C8. On a handle with both families and a non-empty list of IPs,
    [AddIPs] and [DeleteIPs] run the v6 object first, on the v6 IPs. When
    that fails with [e], the call returns the error that wraps [e] with
    ["%w"] and names the v6 set, the v4 object is as it was and the world is
    the one the v6 operation left: no call was made for v4. When it
    succeeds, the v4 operation runs on the v4 IPs from the world the v6
    operation left, and its error, if any, is returned wrapped and naming
    the v4 set. *)
Theorem C8_add_delete_fail_fast_v6_first (as_ : ovnAddressSets IP)
    (s4 s6 : ovnAddressSet IP) (ips : list IP) (w : World Cmd St) :
  ipv4 as_ = Some s4 → ipv6 as_ = Some s6 → ips ≠ [] →
  let v4ips := (splitIPsByFamily ips).1 in
  let v6ips := (splitIPsByFamily ips).2 in
  let handle v4 v6 :=
    {| ass_name := ass_name as_; ipv4 := Some v4; ipv6 := Some v6 |} in
  (∀ e s6' w6, addIPs s6 v6ips w = (Some e, s6', w6) →
     AddIPs as_ ips w = (familyError "v6" (Some e), handle s4 s6', w6)) ∧
  (∀ s6' w6, addIPs s6 v6ips w = (None, s6', w6) →
     AddIPs as_ ips w
     = let out4 := addIPs s4 v4ips w6 in
       (familyError "v4" out4.1.1, handle out4.1.2 s6', out4.2)) ∧
  (∀ e s6' w6, deleteIPs s6 v6ips w = (Some e, s6', w6) →
     DeleteIPs as_ ips w = (familyError "v6" (Some e), handle s4 s6', w6)) ∧
  (∀ s6' w6, deleteIPs s6 v6ips w = (None, s6', w6) →
     DeleteIPs as_ ips w
     = let out4 := deleteIPs s4 v4ips w6 in
       (familyError "v4" out4.1.1, handle out4.1.2 s6', out4.2)).
Proof.
  intros H4 H6 Hips v4ips v6ips handle. subst v4ips v6ips handle.
  assert (Hlen : length ips ≠ 0) by (by destruct ips).
  unfold AddIPs, DeleteIPs. rewrite !decide_False by done.
  destruct (splitIPsByFamily ips) as [v4ips v6ips]. simpl.
  rewrite H4, H6. unfold bind, ret. split_and!.
  - intros e s6' w6 ->. done.
  - intros s6' w6 ->.
    by destruct (addIPs s4 v4ips w6) as [[[e4|] s4'] w4].
  - intros e s6' w6 ->. done.
  - intros s6' w6 ->.
    by destruct (deleteIPs s4 v4ips w6) as [[[e4|] s4'] w4].
Qed.

(** *** [newOvnAddressSet] *)

Variable HashForOVN : string → string.

#[local] Abbreviation hashedAddressSet := (hashedAddressSet HashForOVN).
#[local] Abbreviation newOvnAddressSet :=
  (newOvnAddressSet IPString HashForOVN nb).

(** C5. [newOvnAddressSet] first asks the client for the set under its
    hashed name. When the set is found, the calls that follow are those of
    one replace with the string forms of the desired IPs and none of them
    builds a create; when the replace succeeds the object is returned, and
    every returned object caches exactly the desired IPs under their string
    forms. When the client answers not-found or a schema error, the next
    call builds a create with the string forms of the desired IPs and the
    metadata that maps ["name"] to the family name; construction fails when
    that build fails and when the execution of the command fails, and
    otherwise returns the object caching the desired IPs. *)
Theorem C5_newOvnAddressSet_create_or_adopt (name : string)
    (ips : list IP) (w : World Cmd St) :
  let h := hashedAddressSet name in
  let get := goovn.ASGet nb h (nbState w) in
  let w1 := record (CallASGet h) get.2 w in
  let fresh := {| as_name := name; as_hashName := h; as_uuid := "";
                  as_ips := insertIPs ∅ ips |} in
  let out := newOvnAddressSet name ips w in
  (get.1 = None →
   calls out.2
   = calls w ++ CallASGet h :: replaceCalls fresh (IPString <$> ips) w1 ∧
   Forall (λ c, isCallASAdd c = false)
          (CallASGet h :: replaceCalls fresh (IPString <$> ips) w1) ∧
   (replaceSucceeds fresh (IPString <$> ips) w1 = true →
    out.1 = Ok fresh) ∧
   (replaceSucceeds fresh (IPString <$> ips) w1 = false →
    isErr out.1 = true) ∧
   (∀ a, out.1 = Ok a →
      as_ips a = insertIPs ∅ ips ∧
      dom (as_ips a) = list_to_set (IPString <$> ips))) ∧
  (get.1 = Some ErrorNotFound ∨ get.1 = Some ErrorSchema →
   let add := goovn.ASAdd nb h (IPString <$> ips) {[ "name" := name ]} get.2 in
   match add.1 with
   | Err _ =>
       calls out.2
       = calls w ++ [CallASGet h;
                     CallASAdd h (IPString <$> ips) {[ "name" := name ]}] ∧
       isErr out.1 = true
   | Ok cmd =>
       calls out.2
       = calls w ++ [CallASGet h;
                     CallASAdd h (IPString <$> ips) {[ "name" := name ]};
                     CallExecute cmd] ∧
       match (goovn.Execute nb cmd add.2).1 with
       | Some _ => isErr out.1 = true
       | None =>
           out.1 = Ok fresh ∧
           dom (as_ips fresh) = list_to_set (IPString <$> ips)
       end
   end).
Proof.
  intros h get w1 fresh out.
  assert (Hdom : dom (insertIPs ∅ ips)
                 =@{gset string} list_to_set (IPString <$> ips)).
  { by rewrite dom_insertIPs, dom_empty_L, (left_id_L ∅ (∪)). }
  assert (Hout : out = newOvnAddressSet name ips w) by done.
  clearbody out. unfold newOvnAddressSet in Hout. fold h fresh in Hout.
  unfold bind at 1 in Hout. unfold nb_ASGet in Hout.
  subst w1 get.
  destruct (goovn.ASGet nb h (nbState w)) as [gerr s1] eqn:Hget.
  simpl in Hout |- *. rewrite Hget in Hout. simpl in Hout. set (w1 := record (CallASGet h) s1 w) in *. split.
  - intros ->. unfold bind, ret in Hout.
    pose proof (setIPs_run fresh ips w1) as [Hcalls Hres].
    destruct (setIPs fresh ips w1) as [[e a] w2]. simpl in Hcalls, Hres.
    split_and!.
    + subst out. destruct e; simpl; rewrite Hcalls, <- app_assoc; done.
    + apply Forall_cons. split; [done|]. unfold replaceCalls.
      destruct (goovn.ASUpdate nb _ _ _ _).1;
        repeat first [apply Forall_nil_2 | apply Forall_cons_2; [done|]].
    + intros Hok. rewrite Hok in Hres. injection Hres as -> ->.
      by subst out.
    + intros Hko. rewrite Hko in Hres. destruct Hres as [[e' ->] ->].
      by subst out.
    + intros a'. subst out. destruct (replaceSucceeds fresh _ w1).
      * injection Hres as -> ->. simpl. intros [= <-]. done.
      * destruct Hres as [[e' ->] ->]. done.
  - intros Hnf.
    assert (Hskip : negb (isErrorNotFound (default ErrorNotFound gerr))
                    && negb (isErrorSchema (default ErrorNotFound gerr))
                    = false) by (by destruct Hnf as [-> | ->]).
    destruct gerr as [gerr|]; [|by destruct Hnf]. simpl in Hskip.
    rewrite Hskip in Hout. unfold bind, ret, nb_ASAdd, nb_Execute in Hout.
    simpl in Hout. rewrite ipsToStringArray_fmap in Hout.
    destruct (goovn.ASAdd nb h (IPString <$> ips) {[ "name" := name ]} s1)
      as [[cmd|e] s2]; simpl in Hout |- *.
    + destruct (goovn.Execute nb cmd s2) as [[e|] s3];
        simpl in Hout; subst out; simpl; rewrite <- !app_assoc; done.
    + subst out. simpl. by rewrite <- app_assoc.
Qed.

(** *** [ForEachAddressSet] *)

Lemma forEachLoop_firstNamed (addrSets : list goovn.AddressSet) :
  forEachLoop ∅ addrSets
  = match firstNamed addrSets with
    | Some name => [visitOf name]
    | None => []
    end.
Proof.
  induction addrSets as [|set rest IH]; simpl; [done|].
  destruct (goovn.ExternalID set !! "name") as [[name|]|]; [|done..].
  rewrite decide_False by apply not_elem_of_empty.
  unfold visitOf. do 2 f_equal.
  case_decide as Hlen; [done|].
  by rewrite (lookup_ge_None_2 _ 1) by lia.
Qed.

(** C4, as the code has it. [ForEachAddressSet] calls the iterator function
    at most once: when the listing fails with an error other than the
    schema error it makes no call; otherwise it makes one call, for the
    first record of the listing that has a string under ["name"], with
    that name cut of its family suffix, when there is such a record, and no
    call when there is none. Records before that one, which lack the field
    or hold something else than a string under it, are passed over; records
    after it are not looked at. Over two records named ["a_v4"] and
    ["a_v6"], in either order, the one call is for ["a"]. *)
Theorem C4_forEach_visits_first_named_record (w : World Cmd St) :
  let listing := (goovn.ASList nb (nbState w)).1 in
  let usable :=
    match listing.2 with Some e => isErrorSchema e | None => true end in
  let visits := (ForEachAddressSet w).1.1 in
  length visits ≤ 1 ∧
  visits = match (if usable then firstNamed listing.1 else None) with
           | Some name => [visitOf name]
           | None => []
           end ∧
  (∀ r1 r2,
     usable = true → listing.1 = [r1; r2] →
     (goovn.ExternalID r1 !! "name" = Some (goovn.IString "a_v4") ∧
      goovn.ExternalID r2 !! "name" = Some (goovn.IString "a_v6")) ∨
     (goovn.ExternalID r1 !! "name" = Some (goovn.IString "a_v6") ∧
      goovn.ExternalID r2 !! "name" = Some (goovn.IString "a_v4")) →
     visits = [ {| visit_name := "a"; visit_namespace := "a";
                   visit_suffix := "" |} ]).
Proof.
  intros listing usable visits.
  assert (Hvisits : visits
    = match (if usable then firstNamed listing.1 else None) with
      | Some name => [visitOf name]
      | None => []
      end).
  { subst visits usable listing. unfold ForEachAddressSet, bind, ret.
    unfold nb_ASList.
    destruct (goovn.ASList nb (nbState w)) as [[addrSets err] s]. simpl.
    destruct err as [e|]; simpl.
    - destruct (isErrorSchema e); simpl; [apply forEachLoop_firstNamed|done].
    - apply forEachLoop_firstNamed. }
  split_and!.
  - rewrite Hvisits. destruct (if usable then _ else _); simpl; lia.
  - exact Hvisits.
  - intros r1 r2 Hu Hl Hnames. rewrite Hvisits, Hu, Hl. simpl.
    destruct Hnames as [[-> _]|[-> _]]; reflexivity.
Qed.

End AddressSetsFacts.

(** ** The slices and the family objects *)

Section RoutingFacts.

Context {IP Cmd St : Type}.
Variable IPString : IP → string.
Variable IsIPv6 : IP → bool.
Variable HashForOVN : string → string.
Variable IPv4Mode IPv6Mode : bool.
Variable rangeIPs : gmap string IP → list (string * IP).
Variable nb : goovn.Client Cmd St.

#[local] Abbreviation splitIPsByFamily := (splitIPsByFamily IsIPv6).
#[local] Abbreviation setIPs := (setIPs IPString nb).
#[local] Abbreviation addIPs := (addIPs IPString rangeIPs nb).
#[local] Abbreviation deleteIPs := (deleteIPs IPString rangeIPs nb).
#[local] Abbreviation newOvnAddressSet :=
  (newOvnAddressSet IPString HashForOVN nb).
#[local] Abbreviation SetIPs := (SetIPs IPString IsIPv6 nb).
#[local] Abbreviation AddIPs := (AddIPs IPString IsIPv6 rangeIPs nb).
#[local] Abbreviation DeleteIPs := (DeleteIPs IPString IsIPv6 rangeIPs nb).
#[local] Abbreviation NewAddressSet :=
  (NewAddressSet IPString IsIPv6 HashForOVN IPv4Mode IPv6Mode nb).

(** C10. [splitIPsByFamily] returns, in the input's order, the IPs that
    [IsIPv6] rejects and the IPs it accepts: the two slices together are a
    rearrangement of the input, an IP is in the v6 slice exactly when it is
    in the input and [IsIPv6] holds of it, in the v4 slice exactly when it
    is in the input and [IsIPv6] does not, and never in both. The
    dual-stack operations hand the v6 slice to the v6 object alone and the
    v4 slice to the v4 object alone, so an IP reaches at most one family
    object, and only the one of its family:
    - [SetIPs] is [setIPs] of the v6 object, if the handle has one, with
      the v6 slice, then [setIPs] of the v4 object, if the handle has one,
      with the v4 slice; an object the handle does not have gets nothing;
    - [AddIPs] and [DeleteIPs] return at once on an empty list; otherwise
      they run [addIPs] or [deleteIPs] of the v6 object, if there is one,
      with the v6 slice, and stop if that failed, the v4 object and the
      world being as the v6 step left them; only otherwise do they run the
      v4 object, if there is one, with the v4 slice;
    - [NewAddressSet] constructs the v4 object from the v4 slice when v4 is
      enabled, and stops if that failed; otherwise it constructs the v6
      object from the v6 slice when v6 is enabled; a family that is not
      enabled gets no object. *)
Theorem C10_slices_reach_at_most_their_family_object
    (as_ : ovnAddressSets IP) (name : string) (ips : list IP)
    (w : World Cmd St) :
  let v4ips := (splitIPsByFamily ips).1 in
  let v6ips := (splitIPsByFamily ips).2 in
  (splitIPsByFamily ips
   = (filter (λ ip, ¬ IsIPv6 ip) ips, filter (λ ip, IsIPv6 ip) ips) ∧
   v4ips ++ v6ips ≡ₚ ips ∧
   length v4ips + length v6ips = length ips ∧
   ∀ ip,
     (ip ∈ v6ips ↔ ip ∈ ips ∧ IsIPv6 ip = true) ∧
     (ip ∈ v4ips ↔ ip ∈ ips ∧ IsIPv6 ip = false) ∧
     ¬ (ip ∈ v4ips ∧ ip ∈ v6ips)) ∧
  (let r6 := onFamily setIPs (ipv6 as_) v6ips w in
   let r4 := onFamily setIPs (ipv4 as_) v4ips r6.2 in
   SetIPs as_ ips w
   = (match ipv4 as_ with
      | Some _ => Wrapf r6.1.1 "%v" r4.1.1
      | None => r6.1.1
      end,
      {| ass_name := ass_name as_; ipv4 := r4.1.2; ipv6 := r6.1.2 |},
      r4.2)) ∧
  (let r6 := onFamily addIPs (ipv6 as_) v6ips w in
   let r4 := onFamily addIPs (ipv4 as_) v4ips r6.2 in
   AddIPs as_ ips w
   = if decide (ips = []) then (None, as_, w)
     else match r6.1.1 with
          | Some e =>
              (Some (Errorf "failed to AddIPs to the v6 set: %w" [] e),
               {| ass_name := ass_name as_; ipv4 := ipv4 as_;
                  ipv6 := r6.1.2 |},
               r6.2)
          | None =>
              (match r4.1.1 with
               | Some e =>
                   Some (Errorf "failed to AddIPs to the v4 set: %w" [] e)
               | None => None
               end,
               {| ass_name := ass_name as_; ipv4 := r4.1.2;
                  ipv6 := r6.1.2 |},
               r4.2)
          end) ∧
  (let r6 := onFamily deleteIPs (ipv6 as_) v6ips w in
   let r4 := onFamily deleteIPs (ipv4 as_) v4ips r6.2 in
   DeleteIPs as_ ips w
   = if decide (ips = []) then (None, as_, w)
     else match r6.1.1 with
          | Some e =>
              (Some (Errorf "failed to AddIPs to the v6 set: %w" [] e),
               {| ass_name := ass_name as_; ipv4 := ipv4 as_;
                  ipv6 := r6.1.2 |},
               r6.2)
          | None =>
              (match r4.1.1 with
               | Some e =>
                   Some (Errorf "failed to AddIPs to the v4 set: %w" [] e)
               | None => None
               end,
               {| ass_name := ass_name as_; ipv4 := r4.1.2;
                  ipv6 := r6.1.2 |},
               r4.2)
          end) ∧
  (let r4 := whenEnabled IPv4Mode
               (newOvnAddressSet (MakeAddressSetName name).1 v4ips) w in
   let r6 := whenEnabled IPv6Mode
               (newOvnAddressSet (MakeAddressSetName name).2 v6ips) r4.2 in
   NewAddressSet name ips w
   = match r4.1 with
     | Err e => (Err e, r4.2)
     | Ok v4 =>
         match r6.1 with
         | Err e => (Err e, r6.2)
         | Ok v6 =>
             (Ok {| ass_name := name; ipv4 := v4; ipv6 := v6 |}, r6.2)
         end
     end).
Proof.
  intros v4ips v6ips. subst v4ips v6ips.
  split; [exact (splitIPsByFamily_partition IsIPv6 ips)|].
  split_and!.
  - unfold SetIPs, onFamily, bind, ret.
    destruct (splitIPsByFamily ips) as [v4ips v6ips]. cbn [fst snd].
    destruct (ipv6 as_) as [s6|], (ipv4 as_) as [s4|]; cbn [fst snd].
    + destruct (setIPs s6 v6ips w) as [[e6 s6'] w6]. cbn [fst snd].
      by destruct (setIPs s4 v4ips w6) as [[e4 s4'] w4].
    + by destruct (setIPs s6 v6ips w) as [[e6 s6'] w6].
    + by destruct (setIPs s4 v4ips w) as [[e4 s4'] w4].
    + done.
  - unfold AddIPs.
    destruct ips as [|ip ips]; [done|].
    rewrite decide_False by done. rewrite (decide_False (P := _ = [])) by done.
    unfold onFamily, bind, ret.
    destruct (splitIPsByFamily (ip :: ips)) as [v4ips v6ips]. cbn [fst snd].
    destruct (ipv6 as_) as [s6|], (ipv4 as_) as [s4|]; cbn [fst snd].
    + destruct (addIPs s6 v6ips w) as [[[e6|] s6'] w6]; cbn [fst snd];
        [done|].
      by destruct (addIPs s4 v4ips w6) as [[[e4|] s4'] w4].
    + by destruct (addIPs s6 v6ips w) as [[[e6|] s6'] w6].
    + by destruct (addIPs s4 v4ips w) as [[[e4|] s4'] w4].
    + done.
  - unfold DeleteIPs.
    destruct ips as [|ip ips]; [done|].
    rewrite decide_False by done. rewrite (decide_False (P := _ = [])) by done.
    unfold onFamily, bind, ret.
    destruct (splitIPsByFamily (ip :: ips)) as [v4ips v6ips]. cbn [fst snd].
    destruct (ipv6 as_) as [s6|], (ipv4 as_) as [s4|]; cbn [fst snd].
    + destruct (deleteIPs s6 v6ips w) as [[[e6|] s6'] w6]; cbn [fst snd];
        [done|].
      by destruct (deleteIPs s4 v4ips w6) as [[[e4|] s4'] w4].
    + by destruct (deleteIPs s6 v6ips w) as [[[e6|] s6'] w6].
    + by destruct (deleteIPs s4 v4ips w) as [[[e4|] s4'] w4].
    + done.
  - unfold NewAddressSet, newOvnAddressSets, MakeAddressSetName, whenEnabled,
      bind, ret.
    destruct (splitIPsByFamily ips) as [v4ips v6ips]. cbn [fst snd].
    destruct IPv4Mode, IPv6Mode; cbn [fst snd].
    + destruct (newOvnAddressSet _ v4ips w) as [[s4|e4] w4]; cbn [fst snd];
        [|done].
      by destruct (newOvnAddressSet _ v6ips w4) as [[s6|e6] w6].
    + by destruct (newOvnAddressSet _ v4ips w) as [[s4|e4] w4].
    + by destruct (newOvnAddressSet _ v6ips w) as [[s6|e6] w6].
    + done.
Qed.

End RoutingFacts.

(** ** Runs against the in-memory client *)

(** C1, at two inputs the code can receive. Deleting 10.0.0.1 from a cache
    of 10.0.0.1 and 10.0.0.2 succeeds with one replace, but the replace
    carries no member and the cache ends empty, where the old members
    without 10.0.0.1 are 10.0.0.2. Deleting 10.0.0.3, which is not a
    member, succeeds with one replace that carries 10.0.0.3 alone, and the
    cache ends holding 10.0.0.3 and neither of its old members. *)
Theorem C1_deleteIPs_replaces_with_absent_ips :
  let run ips :=
    deleteIPs fake.IPString fake.rangeIPs fake.nb v4TwoMembers ips
              storeTwoMembers in
  let present := run [fake.v4addr "10.0.0.1"] in
  let absent := run [fake.v4addr "10.0.0.3"] in
  dom (as_ips v4TwoMembers) = {[ "10.0.0.1"; "10.0.0.2" ]} ∧
  present.1.1 = None ∧
  calls present.2
  = [CallASUpdate "ans_v4" [] (nameOf "ns_v4");
     CallExecute (fake.UpdateCmd "ans_v4" [] (nameOf "ns_v4"))] ∧
  dom (as_ips present.1.2) = ∅ ∧
  absent.1.1 = None ∧
  calls absent.2
  = [CallASUpdate "ans_v4" ["10.0.0.3"] (nameOf "ns_v4");
     CallExecute (fake.UpdateCmd "ans_v4" ["10.0.0.3"] (nameOf "ns_v4"))] ∧
  dom (as_ips absent.1.2) = {[ "10.0.0.3" ]}.
Proof. vm_compute. split_and!; reflexivity. Qed.

(** C2, at an input the code can receive. On a handle with both families,
    [SetIPs] runs the v6 replace, which succeeds, and then the v4 replace,
    which fails in its execution; the call returns no error, although the
    v4 cache still holds 10.0.0.1 and not the requested 10.0.0.2. *)
Theorem C2_SetIPs_drops_v4_error :
  let w := fake.world dualRows [None; Some (ClientError "transaction failed")] in
  let out :=
    SetIPs fake.IPString fake.IsIPv6 fake.nb dualNs
           [fake.v4addr "10.0.0.2"; fake.v6addr "fd00::2"] w in
  calls out.2
  = [CallASUpdate "ans_v6" ["fd00::2"] (nameOf "ns_v6");
     CallExecute (fake.UpdateCmd "ans_v6" ["fd00::2"] (nameOf "ns_v6"));
     CallASUpdate "ans_v4" ["10.0.0.2"] (nameOf "ns_v4");
     CallExecute (fake.UpdateCmd "ans_v4" ["10.0.0.2"] (nameOf "ns_v4"))] ∧
  fake.rows (nbState out.2)
  = [fake.row "ans_v4" ["10.0.0.1"] (nameOf "ns_v4");
     fake.row "ans_v6" ["fd00::2"] (nameOf "ns_v6")] ∧
  out.1.1 = None ∧
  (dom ∘ as_ips <$> ipv4 out.1.2) = Some {[ "10.0.0.1" ]} ∧
  (dom ∘ as_ips <$> ipv6 out.1.2) = Some {[ "fd00::2" ]}.
Proof. vm_compute. split_and!; reflexivity. Qed.

(** C3, at an input the code can receive. The store no longer holds the
    set, so the execution of the delete answers not-found: [Destroy]
    returns an error that carries it and leaves the cache as it was, while
    [destroyAddressSet] for the same name, from the same world, returns no
    error. *)
Theorem C3_Destroy_surfaces_not_found :
  let handle := {| ass_name := "ns"; ipv4 := Some v4One; ipv6 := None |} in
  let w := fake.world [] [] in
  let out := Destroy fake.nb handle w in
  calls out.2 = [CallASDel "ans_v4"; CallExecute (fake.DelCmd "ans_v4")] ∧
  out.1.1 = Some (Errorf "failed to destroy address set %q: %v"
                         ["/ns_v4/ans_v4"] ErrorNotFound) ∧
  (dom ∘ as_ips <$> ipv4 out.1.2) = Some {[ "10.0.0.1" ]} ∧
  (destroyAddressSet fake.HashForOVN fake.nb "ns_v4" w).1 = None.
Proof. vm_compute. split_and!; reflexivity. Qed.

(** C4, as the claim states it, fails: the first record of this listing has
    no ["name"], yet the iterator function is called once, for the second
    record. *)
Lemma C4_counterexample_first_record_unnamed :
  headNamed unnamedThenNamed = false ∧
  (ForEachAddressSet fake.nb (fake.world unnamedThenNamed [])).1.1
  = [ {| visit_name := "a"; visit_namespace := "a"; visit_suffix := "" |} ].
Proof. vm_compute. split; reflexivity. Qed.

(** The caches the in-memory runs start from are well-formed. *)
Lemma family_wf (name : string) (ips : list fake.IP) :
  cache_wf fake.IPString (as_ips (fake.family name ips)).
Proof. apply insertIPs_wf, cache_wf_empty. Qed.

(** C6 at concrete inputs, on the object that caches 10.0.0.1 and 10.0.0.2:
    the hypotheses hold; adding 10.0.0.2 and 10.0.0.1, both members, returns
    no error and leaves the object and the world as they were; adding
    10.0.0.3 and 10.0.0.1 to a client that accepts the replace returns no
    error, with the calls of one replace in the trace and the three
    addresses cached; the same call on a client whose execution fails
    returns an error and leaves the object as it was. *)
Lemma C6_addIPs_witness :
  let add := addIPs fake.IPString fake.rangeIPs fake.nb v4TwoMembers in
  let members := [fake.v4addr "10.0.0.2"; fake.v4addr "10.0.0.1"] in
  let fresh := [fake.v4addr "10.0.0.3"; fake.v4addr "10.0.0.1"] in
  let failing :=
    fake.world [fake.row "ans_v4" ["10.0.0.1"; "10.0.0.2"] (nameOf "ns_v4")]
               [Some (ClientError "transaction failed")] in
  (∀ m : gmap string fake.IP, fake.rangeIPs m ≡ₚ map_to_list m) ∧
  cache_wf fake.IPString (as_ips v4TwoMembers) ∧
  list_to_set (fake.IPString <$> members) ⊆@{gset string}
    dom (as_ips v4TwoMembers) ∧
  (list_to_set (fake.IPString <$> fresh) : gset string) ⊈
    dom (as_ips v4TwoMembers) ∧
  add members storeTwoMembers = (None, v4TwoMembers, storeTwoMembers) ∧
  ((add fresh storeTwoMembers).1.1 = None ∧
   length (calls (add fresh storeTwoMembers).2) = 2 ∧
   dom (as_ips (add fresh storeTwoMembers).1.2)
   = {[ "10.0.0.1"; "10.0.0.2"; "10.0.0.3" ]}) ∧
  (is_Some (add fresh failing).1.1 ∧
   (add fresh failing).1.2 = v4TwoMembers).
Proof.
  intros add members fresh failing.
  assert (Hin : list_to_set (fake.IPString <$> members) ⊆@{gset string}
                dom (as_ips v4TwoMembers)).
  { apply (bool_decide_unpack _). vm_compute. exact I. }
  assert (Hout : (list_to_set (fake.IPString <$> fresh) : gset string) ⊈
                 dom (as_ips v4TwoMembers)).
  { apply (bool_decide_unpack _). vm_compute. exact I. }
  split; [reflexivity|]. split; [apply family_wf|].
  split; [exact Hin|]. split; [exact Hout|]. split; [|split].
  - exact (proj1 (C6_addIPs_noop_or_one_replace fake.IPString fake.nb
                    fake.rangeIPs (λ m, reflexivity (map_to_list m))
                    v4TwoMembers members storeTwoMembers (family_wf _ _))
                 Hin).
  - destruct (proj2 (C6_addIPs_noop_or_one_replace fake.IPString fake.nb
                       fake.rangeIPs (λ m, reflexivity (map_to_list m))
                       v4TwoMembers fresh storeTwoMembers (family_wf _ _))
                    Hout) as (Hcalls & _ & _ & _ & Hres).
    match type of Hres with
    | if ?b then _ else _ =>
        assert (Hb : b = true) by (vm_compute; reflexivity);
        rewrite Hb in Hres
    end.
    destruct Hres as (Herr & _ & Hdom).
    split; [exact Herr|]. split.
    + fold add in Hcalls. rewrite Hcalls. vm_compute. reflexivity.
    + fold add in Hdom. rewrite Hdom. vm_compute. reflexivity.
  - destruct (proj2 (C6_addIPs_noop_or_one_replace fake.IPString fake.nb
                       fake.rangeIPs (λ m, reflexivity (map_to_list m))
                       v4TwoMembers fresh failing (family_wf _ _))
                    Hout) as (_ & _ & _ & _ & Hres).
    match type of Hres with
    | if ?b then _ else _ =>
        assert (Hb : b = false) by (vm_compute; reflexivity);
        rewrite Hb in Hres
    end.
    exact Hres.
Defined.

(** The other branch of C6 at a concrete input: adding 10.0.0.3 and
    10.0.0.1 to the same object issues one replace with the three members
    and leaves them cached. *)
Example addIPs_one_new_member :
  let out :=
    addIPs fake.IPString fake.rangeIPs fake.nb v4TwoMembers
           [fake.v4addr "10.0.0.3"; fake.v4addr "10.0.0.1"] storeTwoMembers in
  out.1.1 = None ∧
  length (calls out.2) = 2 ∧
  (∃ members,
     calls out.2
     = [CallASUpdate "ans_v4" members (nameOf "ns_v4");
        CallExecute (fake.UpdateCmd "ans_v4" members (nameOf "ns_v4"))] ∧
     list_to_set members =@{gset string}
     {[ "10.0.0.1"; "10.0.0.2"; "10.0.0.3" ]}) ∧
  dom (as_ips out.1.2) = {[ "10.0.0.1"; "10.0.0.2"; "10.0.0.3" ]}.
Proof.
  vm_compute. split_and!; try reflexivity.
  eexists. split; [reflexivity|]. vm_compute. reflexivity.
Qed.

(** C8 at a concrete input: the hypotheses hold, the v6 replace of [AddIPs]
    fails in its execution, and the call returns the wrapped error with
    the v4 object untouched and only the two calls of the v6 replace in the
    trace. *)
Lemma C8_fail_fast_witness :
  let ips := [fake.v4addr "10.0.0.2"; fake.v6addr "fd00::2"] in
  let w := fake.world dualRows [Some (ClientError "transaction failed")] in
  let out := AddIPs fake.IPString fake.IsIPv6 fake.rangeIPs fake.nb
                    dualNs ips w in
  ipv4 dualNs = Some v4One ∧ ipv6 dualNs = Some v6None ∧ ips ≠ [] ∧
  (∃ e, out.1.1 = familyError "v6" (Some e)) ∧
  ipv4 out.1.2 = Some v4One ∧
  calls out.2
  = [CallASUpdate "ans_v6" ["fd00::2"] (nameOf "ns_v6");
     CallExecute (fake.UpdateCmd "ans_v6" ["fd00::2"] (nameOf "ns_v6"))].
Proof.
  intros ips w out.
  split; [reflexivity|]. split; [reflexivity|]. split; [done|].
  destruct (C8_add_delete_fail_fast_v6_first fake.IPString fake.nb
              fake.rangeIPs fake.IsIPv6 dualNs v4One v6None ips w
              eq_refl eq_refl ltac:(done)) as [Hfail _].
  assert (Hout : ∃ e s6' w6,
            out = (familyError "v6" (Some e),
                   {| ass_name := ass_name dualNs; ipv4 := Some v4One;
                      ipv6 := Some s6' |}, w6) ∧
            calls w6
            = [CallASUpdate "ans_v6" ["fd00::2"] (nameOf "ns_v6");
               CallExecute
                 (fake.UpdateCmd "ans_v6" ["fd00::2"] (nameOf "ns_v6"))]).
  { eexists _, _, _. split.
    - apply Hfail. vm_compute. reflexivity.
    - vm_compute. reflexivity. }
  destruct Hout as (e & s6' & w6 & -> & Hcalls).
  split; [by exists e|]. split; [reflexivity|exact Hcalls].
Defined.

(** C10, as the claim states it, fails: an input IP can reach no family
    object. On the handle with the v4 object alone, [AddIPs] with the v6
    address fd00::1 puts the address in the v6 slice and returns no error,
    with no call made and the handle as it was, and the v4 cache does not
    hold the address. On the dual-stack handle, when the v6 replace fails,
    [AddIPs] with 10.0.0.2 and fd00::2 puts 10.0.0.2 in the v4 slice,
    returns an error and leaves the v4 object as it was, with no call made
    for it, and the v4 cache does not hold 10.0.0.2. *)
Lemma C10_counterexample_ip_reaches_no_object :
  let add := AddIPs fake.IPString fake.IsIPv6 fake.rangeIPs fake.nb in
  let lone := [fake.v6addr "fd00::1"] in
  let pair := [fake.v4addr "10.0.0.2"; fake.v6addr "fd00::2"] in
  let w := fake.world dualRows [] in
  let failing :=
    fake.world dualRows [Some (ClientError "transaction failed")] in
  (splitIPsByFamily fake.IsIPv6 lone = ([], lone) ∧
   ipv4 v4OnlyNs = Some v4One ∧ ipv6 v4OnlyNs = None ∧
   add v4OnlyNs lone w = (None, v4OnlyNs, w) ∧
   as_ips v4One !! "fd00::1" = None) ∧
  (splitIPsByFamily fake.IsIPv6 pair
   = ([fake.v4addr "10.0.0.2"], [fake.v6addr "fd00::2"]) ∧
   is_Some (add dualNs pair failing).1.1 ∧
   (add dualNs pair failing).1.2 = dualNs ∧
   calls (add dualNs pair failing).2
   = [CallASUpdate "ans_v6" ["fd00::2"] (nameOf "ns_v6");
      CallExecute (fake.UpdateCmd "ans_v6" ["fd00::2"] (nameOf "ns_v6"))] ∧
   as_ips v4One !! "10.0.0.2" = None).
Proof. vm_compute. split_and!; by eauto. Qed.

(** ** More runs *)

Example Split_examples :
  strings.Split "ns1.egress.x" "." = ["ns1"; "egress"; "x"] ∧
  strings.Split "ns1" "." = ["ns1"] ∧
  strings.Split "" "." = [""] ∧
  strings.Split "a." "." = ["a"; ""] ∧
  strings.Split "a--b-c" "--" = ["a"; "b-c"].
Proof. vm_compute. split_and!; reflexivity. Qed.

Example truncate_examples :
  truncateSuffixFromAddressSet "ns1.egress_v6" = "ns1.egress" ∧
  truncateSuffixFromAddressSet "ns1_v4_v4" = "ns1_v4" ∧
  truncateSuffixFromAddressSet "legacy" = "legacy" ∧
  truncateSuffixFromAddressSet "v4" = "v4".
Proof. vm_compute. split_and!; reflexivity. Qed.

(** Construction in IPv4-only mode on an empty store creates the v4 set
    with the IPs as given, and the cache holds each string form once. A
    second construction on the store the first one left finds the set,
    issues a replace in place of a create, and ends with the same cache. *)
Example construct_then_construct_again :
  let new :=
    NewAddressSet fake.IPString fake.IsIPv6 fake.HashForOVN true false
                  fake.nb "ns1"
                  [fake.v4addr "10.0.0.1"; fake.v4addr "10.0.0.1"] in
  let first := new (fake.world [] []) in
  let second := new {| calls := []; nbState := nbState first.2 |} in
  let cached (r : result (ovnAddressSets fake.IP)) :=
    match r with
    | Ok as_ => (dom ∘ as_ips <$> ipv4 as_, dom ∘ as_ips <$> ipv6 as_)
    | Err _ => (None, None)
    end in
  calls first.2
  = [CallASGet "ans1_v4";
     CallASAdd "ans1_v4" ["10.0.0.1"; "10.0.0.1"] (nameOf "ns1_v4");
     CallExecute
       (fake.AddCmd "ans1_v4" ["10.0.0.1"; "10.0.0.1"] (nameOf "ns1_v4"))] ∧
  cached first.1 = (Some {[ "10.0.0.1" ]}, None) ∧
  calls second.2
  = [CallASGet "ans1_v4";
     CallASUpdate "ans1_v4" ["10.0.0.1"; "10.0.0.1"] (nameOf "ns1_v4");
     CallExecute
       (fake.UpdateCmd "ans1_v4" ["10.0.0.1"; "10.0.0.1"] (nameOf "ns1_v4"))] ∧
  cached second.1 = (Some {[ "10.0.0.1" ]}, None).
Proof. vm_compute. split_and!; reflexivity. Qed.

(** A replace whose execution fails leaves the cache; one that succeeds
    replaces it. *)
Example setIPs_fails_then_succeeds :
  let ips := [fake.v4addr "10.0.0.9"] in
  let failing :=
    setIPs fake.IPString fake.nb v4One ips
           (fake.world dualRows [Some (ClientError "transaction failed")]) in
  let passing :=
    setIPs fake.IPString fake.nb v4One ips (fake.world dualRows []) in
  is_Some failing.1.1 ∧ dom (as_ips failing.1.2) = {[ "10.0.0.1" ]} ∧
  passing.1.1 = None ∧ dom (as_ips passing.1.2) = {[ "10.0.0.9" ]}.
Proof. vm_compute. split_and!; try reflexivity. by eexists. Qed.

(** * Further properties *)

(** ** Vocabulary *)

(** The names the delete builds of a trace ask for, in order. *)
Definition delNames {Cmd} (cs : list (call Cmd)) : list string :=
  omap (λ c, match c with CallASDel name => Some name | _ => None end) cs.

(** The names the update builds of a trace ask for, in order. *)
Definition updateNames {Cmd} (cs : list (call Cmd)) : list string :=
  omap (λ c, match c with CallASUpdate name _ _ => Some name | _ => None end)
       cs.

(** A string without the byte ["."]. *)
Definition noDot (s : string) : Prop :=
  Forall (λ c, c ≠ "."%char) (String.list_ascii_of_string s).

(** A client that is down: every call fails with the same error. *)
Definition downClient : goovn.Client unit unit :=
  let e := ClientError "connection refused" in
  {| goovn.ASGet _ s := (Some e, s);
     goovn.ASList s := (([], Some e), s);
     goovn.ASAdd _ _ _ s := (Err e, s);
     goovn.ASUpdate _ _ _ s := (Err e, s);
     goovn.ASDel _ s := (Err e, s);
     goovn.Execute _ s := (Some e, s) |}.

(** ** Per-family objects *)

Section PerFamilyFacts.

Context {IP Cmd St : Type}.
Variable IPString : IP → string.
Variable nb : goovn.Client Cmd St.
Variable rangeIPs : gmap string IP → list (string * IP).

#[local] Abbreviation insertIPs := (insertIPs IPString).
#[local] Abbreviation cache_wf := (cache_wf IPString).
#[local] Abbreviation newSubset := (newSubset IPString).
#[local] Abbreviation setIPs := (setIPs IPString nb).
#[local] Abbreviation replaceCalls := (replaceCalls nb).
#[local] Abbreviation replaceSucceeds := (replaceSucceeds nb).
#[local] Abbreviation destroy := (destroy nb).
#[local] Abbreviation allIPs := (allIPs rangeIPs).
#[local] Abbreviation addIPs := (addIPs IPString rangeIPs nb).
#[local] Abbreviation deleteIPs := (deleteIPs IPString rangeIPs nb).

(** The outcome of one replace on an object: its calls, and either the
    object with the cache written from [ips], or an error and the object
    as it was. *)
Definition replaced (as_ : ovnAddressSet IP) (ips : list IP)
    (w : World Cmd St)
    (out : option error * ovnAddressSet IP * World Cmd St) : Prop :=
  calls out.2 = calls w ++ replaceCalls as_ (IPString <$> ips) w ∧
  if replaceSucceeds as_ (IPString <$> ips) w
  then out.1 = (None, with_ips as_ (insertIPs ∅ ips))
  else is_Some out.1.1 ∧ out.1.2 = as_.

Lemma addIPs_run (as_ : ovnAddressSet IP) (ips : list IP) (w : World Cmd St) :
  let uniq := newSubset (as_ips as_) ips in
  if decide (uniq = [])
  then addIPs as_ ips w = (None, as_, w)
  else replaced as_ (uniq ++ allIPs as_) w (addIPs as_ ips w).
Proof.
  intros uniq. unfold addIPs. rewrite uniqIPs_filter, app_nil_l. fold uniq.
  destruct uniq as [|ip uniq']; [done|]. simpl decide.
  rewrite decide_False by done. rewrite decide_False by done.
  set (l := (ip :: uniq') ++ allIPs as_).
  pose proof (setIPs_run IPString nb as_ l w) as [Hcalls Hres].
  unfold replaced, bind, ret.
  destruct (setIPs as_ l w) as [[e as'] w']. simpl in Hcalls, Hres.
  destruct (replaceSucceeds as_ _ w).
  - injection Hres as -> ->. done.
  - destruct Hres as [[e' ->] ->]. simpl. by eauto.
Qed.

Lemma deleteLoop_sublist (m : gmap string IP) (acc ips : list IP) :
  ∃ l, sublist l ips ∧
    (foldl (λ '((newMap, newIPs) : gmap string IP * list IP) ip,
              match newMap !! IPString ip with
              | Some _ => (delete (IPString ip) newMap, newIPs)
              | None => (newMap, newIPs ++ [ip])
              end) (m, acc) ips).2 = acc ++ l.
Proof.
  revert m acc. induction ips as [|ip ips IH]; intros m acc; simpl.
  - exists []. by rewrite app_nil_r.
  - destruct (m !! IPString ip).
    + destruct (IH (delete (IPString ip) m) acc) as (l & Hl & ->).
      exists l. split; [by constructor|done].
    + destruct (IH m (acc ++ [ip])) as (l & Hl & ->).
      exists (ip :: l). split; [by constructor|by rewrite <- app_assoc].
Qed.

Lemma deleteIPs_run (as_ : ovnAddressSet IP) (ips : list IP)
    (w : World Cmd St) :
  ∃ newIPs, sublist newIPs ips ∧ replaced as_ newIPs w (deleteIPs as_ ips w).
Proof.
  unfold deleteIPs.
  destruct (deleteLoop_sublist
              (foldl (λ m kv, <[kv.1 := kv.2]> m) ∅ (rangeIPs (as_ips as_)))
              [] ips) as (l & Hl & Hloop).
  destruct (foldl _ (_, []) ips) as [m' newIPs]. simpl in Hloop. subst newIPs.
  exists l. split; [done|].
  pose proof (setIPs_run IPString nb as_ l w) as [Hcalls Hres].
  unfold replaced, bind, ret.
  destruct (setIPs as_ l w) as [[e as'] w']. simpl in Hcalls, Hres.
  destruct (replaceSucceeds as_ _ w).
  - injection Hres as -> ->. done.
  - destruct Hres as [[e' ->] ->]. simpl. by eauto.
Qed.

(** *** The cache mirrors the last write *)

Lemma replaced_mirrors (as_ : ovnAddressSet IP) (l : list IP)
    (w : World Cmd St) out :
  replaced as_ l w out →
  ∃ members,
    calls out.2 = calls w ++ replaceCalls as_ members w ∧
    match out.1.1 with
    | None => dom (as_ips out.1.2) =@{gset string} list_to_set members
    | Some _ => out.1.2 = as_
    end.
Proof.
  intros [Hcalls Hres]. exists (IPString <$> l). split; [done|].
  destruct out as [[e as'] w']. simpl in *.
  destruct (replaceSucceeds as_ _ w).
  - injection Hres as -> ->. simpl.
    by rewrite dom_insertIPs, dom_empty_L, (left_id_L ∅ (∪)).
  - by destruct Hres as [[e' ->] ->].
Qed.

(** X1. Whatever the client does, [setIPs], [addIPs] and [deleteIPs] either
    make no call and leave the object and the world as they were (only
    [addIPs] does), or make the calls of exactly one replace; when they
    then return no error the keys of the cache are exactly the members
    that replace carried, and when they return an error the object is as
    it was. *)
Theorem X1_cache_mirrors_last_write (as_ : ovnAddressSet IP) (ips : list IP)
    (w : World Cmd St) :
  let mirrors out :=
    out = (None, as_, w) ∨
    ∃ members,
      calls out.2 = calls w ++ replaceCalls as_ members w ∧
      match out.1.1 with
      | None => dom (as_ips out.1.2) =@{gset string} list_to_set members
      | Some _ => out.1.2 = as_
      end in
  (∃ members,
     calls (setIPs as_ ips w).2 = calls w ++ replaceCalls as_ members w ∧
     match (setIPs as_ ips w).1.1 with
     | None =>
         dom (as_ips (setIPs as_ ips w).1.2) =@{gset string}
         list_to_set members
     | Some _ => (setIPs as_ ips w).1.2 = as_
     end) ∧
  mirrors (addIPs as_ ips w) ∧
  (∃ members,
     calls (deleteIPs as_ ips w).2 = calls w ++ replaceCalls as_ members w ∧
     match (deleteIPs as_ ips w).1.1 with
     | None =>
         dom (as_ips (deleteIPs as_ ips w).1.2) =@{gset string}
         list_to_set members
     | Some _ => (deleteIPs as_ ips w).1.2 = as_
     end).
Proof.
  intros mirrors. split_and!.
  - apply (replaced_mirrors as_ ips). apply setIPs_run.
  - subst mirrors. cbv beta. pose proof (addIPs_run as_ ips w) as Hrun.
    cbv zeta in Hrun. case_decide; [by left|].
    right. by eapply replaced_mirrors.
  - destruct (deleteIPs_run as_ ips w) as (l & _ & Hrun).
    by eapply replaced_mirrors.
Qed.

(** *** What the operations keep *)

Lemma replaced_identity (as_ : ovnAddressSet IP) (l : list IP)
    (w : World Cmd St) out :
  replaced as_ l w out →
  as_name out.1.2 = as_name as_ ∧ as_hashName out.1.2 = as_hashName as_ ∧
  as_uuid out.1.2 = as_uuid as_.
Proof.
  intros [_ Hres]. destruct out as [[e as'] w']. simpl in *.
  destruct (replaceSucceeds as_ _ w).
  - by injection Hres as -> ->.
  - by destruct Hres as [_ ->].
Qed.

Lemma replaced_wf (as_ : ovnAddressSet IP) (l : list IP)
    (w : World Cmd St) out :
  cache_wf (as_ips as_) → replaced as_ l w out → cache_wf (as_ips out.1.2).
Proof.
  intros Hwf [_ Hres]. destruct out as [[e as'] w']. simpl in *.
  destruct (replaceSucceeds as_ _ w).
  - injection Hres as -> ->. simpl. apply insertIPs_wf, cache_wf_empty.
  - by destruct Hres as [_ ->].
Qed.

(** The name, the hashed name and the uuid of an object are the same after
    every one of its operations. *)
Lemma perFamily_identity (as_ : ovnAddressSet IP) (ips : list IP)
    (w : World Cmd St) :
  let same (out : option error * ovnAddressSet IP * World Cmd St) :=
    as_name out.1.2 = as_name as_ ∧ as_hashName out.1.2 = as_hashName as_ ∧
    as_uuid out.1.2 = as_uuid as_ in
  same (setIPs as_ ips w) ∧ same (addIPs as_ ips w) ∧
  same (deleteIPs as_ ips w) ∧ same (destroy as_ w).
Proof.
  intros same. subst same. cbv beta.
  assert (Hset := replaced_identity as_ ips w _
                    (setIPs_run IPString nb as_ ips w)).
  assert (Hadd : as_name (addIPs as_ ips w).1.2 = as_name as_ ∧
                 as_hashName (addIPs as_ ips w).1.2 = as_hashName as_ ∧
                 as_uuid (addIPs as_ ips w).1.2 = as_uuid as_).
  { pose proof (addIPs_run as_ ips w) as Hrun. cbv zeta in Hrun.
    case_decide; [by rewrite Hrun|]. by eapply replaced_identity. }
  assert (Hdel : as_name (deleteIPs as_ ips w).1.2 = as_name as_ ∧
                 as_hashName (deleteIPs as_ ips w).1.2 = as_hashName as_ ∧
                 as_uuid (deleteIPs as_ ips w).1.2 = as_uuid as_).
  { destruct (deleteIPs_run as_ ips w) as (l & _ & Hrun).
    by eapply replaced_identity. }
  assert (Hdes : as_name (destroy as_ w).1.2 = as_name as_ ∧
                 as_hashName (destroy as_ w).1.2 = as_hashName as_ ∧
                 as_uuid (destroy as_ w).1.2 = as_uuid as_).
  { unfold destroy, bind, ret, nb_ASDel, nb_Execute.
    destruct (goovn.ASDel nb _ _) as [[cmd|e] s1]; simpl; [|done].
    by destruct (goovn.Execute nb cmd _) as [[e|] s2]. }
  done.
Qed.

(** X2. A cache whose every key is the string form of its value stays so
    through [setIPs], [addIPs], [deleteIPs] and [destroy], whether they
    succeed or fail. *)
Theorem X2_operations_keep_cache_wf (as_ : ovnAddressSet IP)
    (ips : list IP) (w : World Cmd St) :
  cache_wf (as_ips as_) →
  cache_wf (as_ips (setIPs as_ ips w).1.2) ∧
  cache_wf (as_ips (addIPs as_ ips w).1.2) ∧
  cache_wf (as_ips (deleteIPs as_ ips w).1.2) ∧
  cache_wf (as_ips (destroy as_ w).1.2).
Proof.
  intros Hwf. split_and!.
  - apply (replaced_wf as_ ips w); [done|apply setIPs_run].
  - pose proof (addIPs_run as_ ips w) as Hrun. cbv zeta in Hrun.
    case_decide; [by rewrite Hrun|]. by eapply replaced_wf.
  - destruct (deleteIPs_run as_ ips w) as (l & _ & Hrun).
    by eapply replaced_wf.
  - pose proof (destroy_run nb as_ w) as Hrun. cbv zeta in Hrun.
    destruct (goovn.ASDel nb _ _).1 as [cmd|e].
    + destruct Hrun as [_ Hrun].
      destruct (goovn.Execute nb cmd _).1.
      * by destruct Hrun as [_ ->].
      * destruct Hrun as [_ ->]. apply cache_wf_empty.
    + by destruct Hrun as (_ & _ & ->).
Qed.

(** *** Which IP a key holds *)

Lemma insertIPs_last (m : gmap string IP) (ips : list IP) (k : string) :
  insertIPs m ips !! k
  = match last (filter (λ ip, IPString ip = k) ips) with
    | Some ip => Some ip
    | None => m !! k
    end.
Proof.
  revert m. induction ips as [|x ips IH]; intros m; [done|].
  rewrite insertIPs_cons, IH, filter_cons. case_decide as Hx.
  - rewrite last_cons.
    destruct (last (filter _ ips)); [done|]. rewrite <- Hx.
    apply lookup_insert_eq.
  - destruct (last (filter _ ips)); [done|]. by apply lookup_insert_ne.
Qed.

(** X3. When [setIPs] returns no error, a string is a key of the cache
    exactly when it is the string form of one of the given IPs, and the
    cache holds under it the last of the given IPs with that string
    form. *)
Theorem X3_setIPs_keeps_last_duplicate (as_ : ovnAddressSet IP)
    (ips : list IP) (w : World Cmd St) (k : string) :
  (setIPs as_ ips w).1.1 = None →
  as_ips (setIPs as_ ips w).1.2 !! k
  = last (filter (λ ip, IPString ip = k) ips).
Proof.
  pose proof (setIPs_run IPString nb as_ ips w) as [_ Hres]. simpl in Hres.
  destruct (replaceSucceeds as_ _ w).
  - rewrite Hres. simpl. intros _. rewrite insertIPs_last, lookup_empty.
    by destruct (last _).
  - destruct Hres as [[e ->] _]. done.
Qed.

End PerFamilyFacts.

(** ** Walking the cache *)

Section RangeFacts.

Context {IP : Type}.
Variable IPString : IP → string.
Variable rangeIPs : gmap string IP → list (string * IP).
Hypothesis rangeIPs_perm : ∀ m, rangeIPs m ≡ₚ map_to_list m.

#[local] Abbreviation cache_wf := (cache_wf IPString).
#[local] Abbreviation allIPs := (allIPs rangeIPs).

(** X4. Over a well-formed cache, in whatever order [range] walks it,
    [allIPs] returns every cached IP once: an IP is returned exactly when
    the cache holds it under its string form, the string forms of the
    returned IPs are pairwise different and are the keys of the cache, and
    there are as many IPs as the cache has entries. *)
Theorem X4_allIPs_enumerates_cache (as_ : ovnAddressSet IP) :
  cache_wf (as_ips as_) →
  (∀ ip, ip ∈ allIPs as_ ↔ as_ips as_ !! IPString ip = Some ip) ∧
  NoDup (IPString <$> allIPs as_) ∧
  list_to_set (IPString <$> allIPs as_) =@{gset string} dom (as_ips as_) ∧
  length (allIPs as_) = size (as_ips as_).
Proof using rangeIPs_perm.
  intros Hwf. rewrite allIPs_values.
  assert (Hkeys : IPString <$> (rangeIPs (as_ips as_)).*2
                  = (rangeIPs (as_ips as_)).*1).
  { rewrite <- list_fmap_compose. apply list_fmap_ext.
    intros i [k v] Hin. simpl. apply Hwf.
    apply elem_of_map_to_list. rewrite <- rangeIPs_perm.
    by eapply list_elem_of_lookup_2. }
  split_and!.
  - intros ip. rewrite list_elem_of_fmap. split.
    + intros ([k v] & -> & Hin). simpl.
      rewrite rangeIPs_perm in Hin. apply elem_of_map_to_list in Hin.
      by rewrite (Hwf _ _ Hin).
    + intros Hip. exists (IPString ip, ip). split; [done|].
      rewrite rangeIPs_perm. by apply elem_of_map_to_list.
  - rewrite Hkeys, rangeIPs_perm. apply NoDup_fst_map_to_list.
  - rewrite Hkeys. apply set_eq. intros k.
    rewrite elem_of_list_to_set, rangeIPs_perm, elem_of_dom,
      list_elem_of_fmap. split.
    + intros ([k' v] & -> & Hin). apply elem_of_map_to_list in Hin. by eexists.
    + intros [v Hv]. exists (k, v). split; [done|].
      by apply elem_of_map_to_list.
  - by rewrite length_fmap, rangeIPs_perm, length_map_to_list.
Qed.

End RangeFacts.

(** ** The factory *)

(** A call that builds or executes a delete. *)
Definition isDelOrExecute {Cmd} (c : call Cmd) : bool :=
  match c with CallASDel _ | CallExecute _ => true | _ => false end.

Section FactoryFacts.

Context {IP Cmd St : Type}.
Variable IPString : IP → string.
Variable IsIPv6 : IP → bool.
Variable HashForOVN : string → string.
Variable nb : goovn.Client Cmd St.

#[local] Abbreviation insertIPs := (insertIPs IPString).
#[local] Abbreviation splitIPsByFamily := (splitIPsByFamily IsIPv6).
#[local] Abbreviation hashedAddressSet := (hashedAddressSet HashForOVN).
#[local] Abbreviation MakeAddressSetHashNames :=
  (MakeAddressSetHashNames HashForOVN).
#[local] Abbreviation setIPs := (setIPs IPString nb).
#[local] Abbreviation newOvnAddressSet :=
  (newOvnAddressSet IPString HashForOVN nb).
#[local] Abbreviation destroyAddressSet := (destroyAddressSet HashForOVN nb).
#[local] Abbreviation DestroyAddressSetInBackingStore :=
  (DestroyAddressSetInBackingStore HashForOVN nb).
#[local] Abbreviation ForEachAddressSet := (ForEachAddressSet nb).

Lemma isErrorNotFound_true (e : error) :
  isErrorNotFound e = true ↔ e = ErrorNotFound.
Proof. by destruct e. Qed.

(** X5. [destroyAddressSet] builds one delete for the hashed name and, when
    the build gives a command, executes it. It returns no error exactly
    when the build succeeds and the execution returns no error or
    [ErrorNotFound]; a failed build is not followed by an execution. *)
Theorem X5_destroyAddressSet_not_found_is_success (name : string)
    (w : World Cmd St) :
  let h := hashedAddressSet name in
  let del := goovn.ASDel nb h (nbState w) in
  let out := destroyAddressSet name w in
  match del.1 with
  | Err _ => calls out.2 = calls w ++ [CallASDel h] ∧ is_Some out.1
  | Ok cmd =>
      let exec := goovn.Execute nb cmd del.2 in
      calls out.2 = calls w ++ [CallASDel h; CallExecute cmd] ∧
      nbState out.2 = exec.2 ∧
      (out.1 = None ↔ exec.1 = None ∨ exec.1 = Some ErrorNotFound)
  end.
Proof.
  intros h del out. subst out del. unfold destroyAddressSet.
  fold h. unfold bind, ret, nb_ASDel, nb_Execute, record. simpl.
  destruct (goovn.ASDel nb h (nbState w)) as [[cmd|e] s1]; simpl;
    [|by eauto].
  destruct (goovn.Execute nb cmd s1) as [[e|] s2]; simpl.
  - rewrite <- app_assoc.
    destruct (isErrorNotFound e) eqn:He; simpl; (split; [done|]);
      (split; [done|]).
    + apply isErrorNotFound_true in He as ->. split; [by right|done].
    + split; [done|]. intros [?|[= ->]]; done.
  - rewrite <- app_assoc. split_and!; [done|done|]. split; [by left|done].
Qed.

Lemma delNames_app (l1 l2 : list (call Cmd)) :
  delNames (l1 ++ l2) = delNames l1 ++ delNames l2.
Proof. apply omap_app. Qed.

Lemma destroyAddressSet_calls (name : string) (w : World Cmd St) :
  ∃ tail,
    calls (destroyAddressSet name w).2
    = calls w ++ CallASDel (hashedAddressSet name) :: tail ∧
    delNames tail = [] ∧ Forall (λ c, isDelOrExecute c = true) tail.
Proof.
  unfold destroyAddressSet, bind, ret, nb_ASDel, nb_Execute, record. simpl.
  destruct (goovn.ASDel nb _ (nbState w)) as [[cmd|e] s1]; simpl.
  - exists [CallExecute cmd].
    destruct (goovn.Execute nb cmd s1) as [[e|] s2]; simpl;
      [destruct (isErrorNotFound e); simpl|];
      rewrite <- app_assoc; split_and!; by repeat constructor.
  - exists []. split_and!; by repeat constructor.
Qed.

(** X6. [DestroyAddressSetInBackingStore] destroys the raw name, then the
    v4 name, then the v6 name, and stops at the first of the three that
    fails: it returns the error of that one, leaves the world as that one
    left it, and has asked to delete the names up to and including that
    one and no other. When none fails it returns what the third returns,
    having asked for all three. In every case it only builds and executes
    deletes, and the names its deletes ask for are, in order, a non-empty
    prefix of the three hashed names, all three when it returns no
    error. *)
Theorem X6_DestroyAddressSetInBackingStore_order (name : string)
    (w : World Cmd St) :
  let out := DestroyAddressSetInBackingStore name w in
  let all := [hashedAddressSet name;
              hashedAddressSet (name +:+ "_v4");
              hashedAddressSet (name +:+ "_v6")] in
  let raw := destroyAddressSet name w in
  let v4 := destroyAddressSet (name +:+ "_v4") raw.2 in
  let v6 := destroyAddressSet (name +:+ "_v6") v4.2 in
  ∃ new,
    calls out.2 = calls w ++ new ∧
    Forall (λ c, isDelOrExecute c = true) new ∧
    delNames new `prefix_of` all ∧
    delNames new ≠ [] ∧
    (out.1 = None → delNames new = all) ∧
    match raw.1 with
    | Some e => out = (Some e, raw.2) ∧ delNames new = take 1 all
    | None =>
        match v4.1 with
        | Some e => out = (Some e, v4.2) ∧ delNames new = take 2 all
        | None => out = v6 ∧ delNames new = all
        end
    end.
Proof.
  intros out all raw v4 v6. subst out all raw v4 v6.
  unfold DestroyAddressSetInBackingStore.
  unfold MakeAddressSetName, ipv4AddressSetSuffix, ipv6AddressSetSuffix.
  unfold bind, ret.
  destruct (destroyAddressSet_calls name w) as (t1 & Hc1 & Hd1 & Hf1).
  destruct (destroyAddressSet name w) as [e1 w1]. cbn [fst snd] in Hc1.
  cbn [fst snd].
  assert (Hdel : ∀ h t, delNames (CallASDel (Cmd:=Cmd) h :: t)
                        = h :: delNames t) by done.
  assert (Hfor : ∀ h t, Forall (λ c : call Cmd, isDelOrExecute c = true) t →
                 Forall (λ c : call Cmd, isDelOrExecute c = true)
                        (CallASDel h :: t)).
  { intros h t Ht. by apply Forall_cons. }
  destruct e1 as [e1|].
  { exists (CallASDel (hashedAddressSet name) :: t1).
    rewrite Hdel, Hd1.
    split_and!; [exact Hc1|by apply Hfor|by eexists|done..]. }
  destruct (destroyAddressSet_calls (name +:+ "_v4") w1)
    as (t2 & Hc2 & Hd2 & Hf2).
  destruct (destroyAddressSet (name +:+ "_v4") w1) as [e2 w2].
  cbn [fst snd] in Hc2. rewrite Hc1, <- app_assoc in Hc2. cbn [fst snd].
  destruct e2 as [e2|].
  { eexists. split; [exact Hc2|].
    rewrite delNames_app, !Hdel, Hd1, Hd2.
    split_and!; [|by eexists|done..].
    apply Forall_app. split; by apply Hfor. }
  destruct (destroyAddressSet_calls (name +:+ "_v6") w2)
    as (t3 & Hc3 & Hd3 & Hf3).
  destruct (destroyAddressSet (name +:+ "_v6") w2) as [e3 w3].
  cbn [fst snd] in Hc3. rewrite Hc2, <- !app_assoc in Hc3.
  exists ((CallASDel (hashedAddressSet name) :: t1)
          ++ (CallASDel (hashedAddressSet (name +:+ "_v4")) :: t2)
          ++ CallASDel (hashedAddressSet (name +:+ "_v6")) :: t3).
  rewrite !delNames_app, !Hdel, Hd1, Hd2, Hd3.
  split_and!; [by destruct e3| |done..|by destruct e3|done].
  repeat (apply Forall_app; split); by apply Hfor.
Qed.

(** X7. When the lookup of [newOvnAddressSet] fails with an error that is
    neither [ErrorNotFound] nor [ErrorSchema], construction fails with an
    error around it and the lookup is the only call made: nothing is
    created or updated. *)
Theorem X7_newOvnAddressSet_lookup_error_is_fatal (name : string)
    (ips : list IP) (w : World Cmd St) (e : error) :
  (goovn.ASGet nb (hashedAddressSet name) (nbState w)).1 = Some e →
  isErrorNotFound e = false → isErrorSchema e = false →
  let out := newOvnAddressSet name ips w in
  out.1 = Err (Errorf "failed to get address set %q: %v" [name] e) ∧
  calls out.2 = calls w ++ [CallASGet (hashedAddressSet name)].
Proof.
  intros Hget Hnf Hsc out. subst out. unfold newOvnAddressSet.
  unfold bind, nb_ASGet. simpl.
  destruct (goovn.ASGet nb _ (nbState w)) as [gerr s1]. simpl in Hget.
  subst gerr. by rewrite Hnf, Hsc.
Qed.

(** An object that [newOvnAddressSet] returns carries the given name, its
    hash, and the cache written from the given IPs. *)
Lemma newOvnAddressSet_ok (name : string) (ips : list IP)
    (w : World Cmd St) (a : ovnAddressSet IP) :
  (newOvnAddressSet name ips w).1 = Ok a →
  a = {| as_name := name; as_hashName := hashedAddressSet name;
         as_uuid := ""; as_ips := insertIPs ∅ ips |}.
Proof.
  unfold newOvnAddressSet.
  set (fresh := {| as_name := name; as_hashName := hashedAddressSet name;
                   as_uuid := ""; as_ips := insertIPs ∅ ips |}).
  unfold bind at 1. unfold nb_ASGet.
  destruct (goovn.ASGet nb _ (nbState w)) as [[gerr|] s1].
  - destruct (negb (isErrorNotFound gerr) && negb (isErrorSchema gerr));
      [done|].
    unfold bind, ret, nb_ASAdd, nb_Execute.
    destruct (goovn.ASAdd nb _ _ _ _) as [[cmd|e] s2]; [|done].
    destruct (goovn.Execute nb cmd _) as [[e|] s3]; [done|].
    simpl. by intros [= <-].
  - unfold bind, ret.
    pose proof (setIPs_run IPString nb fresh ips
                  (record (CallASGet (as_hashName fresh)) s1 w)) as [_ Hres].
    destruct (setIPs fresh ips _) as [[e a'] w']. simpl in Hres.
    destruct (replaceSucceeds nb fresh _ _).
    + injection Hres as -> ->. simpl. by intros [= <-].
    + by destruct Hres as [[e' ->] _].
Qed.

Lemma splitIPsByFamily_filter (ips : list IP) :
  splitIPsByFamily ips
  = (filter (λ ip, ¬ IsIPv6 ip) ips, filter (λ ip, IsIPv6 ip) ips).
Proof. unfold splitIPsByFamily. by rewrite splitIPsByFamily_acc. Qed.

(** *** [NewAddressSet] *)

Variable IPv4Mode IPv6Mode : bool.

#[local] Abbreviation NewAddressSet :=
  (NewAddressSet IPString IsIPv6 HashForOVN IPv4Mode IPv6Mode nb).

(** [NewAddressSet] is the v4 construction, when v4 is enabled, followed by
    the v6 construction, when v6 is enabled, the first failure ending the
    call. *)
Lemma NewAddressSet_run (name : string) (ips : list IP) (w : World Cmd St) :
  let out4 := newOvnAddressSet (name +:+ "_v4") (splitIPsByFamily ips).1 w in
  let w4 := if IPv4Mode then out4.2 else w in
  let out6 := newOvnAddressSet (name +:+ "_v6") (splitIPsByFamily ips).2 w4 in
  NewAddressSet name ips w
  = if IPv4Mode
    then match out4.1 with
         | Err e => (Err e, out4.2)
         | Ok s4 =>
             if IPv6Mode
             then match out6.1 with
                  | Err e => (Err e, out6.2)
                  | Ok s6 =>
                      (Ok {| ass_name := name; ipv4 := Some s4;
                             ipv6 := Some s6 |}, out6.2)
                  end
             else (Ok {| ass_name := name; ipv4 := Some s4;
                         ipv6 := None |}, w4)
         end
    else if IPv6Mode
    then match out6.1 with
         | Err e => (Err e, out6.2)
         | Ok s6 =>
             (Ok {| ass_name := name; ipv4 := None; ipv6 := Some s6 |},
              out6.2)
         end
    else (Ok {| ass_name := name; ipv4 := None; ipv6 := None |}, w).
Proof.
  intros out4 w4 out6. subst out4 w4 out6.
  unfold NewAddressSet, newOvnAddressSets, MakeAddressSetName,
    ipv4AddressSetSuffix, ipv6AddressSetSuffix.
  destruct (splitIPsByFamily ips) as [v4IPs v6IPs]. simpl.
  unfold bind, ret. destruct IPv4Mode, IPv6Mode; simpl.
  - destruct (newOvnAddressSet (name +:+ "_v4") v4IPs w) as [[s4|e] w4];
      simpl; [|done].
    by destruct (newOvnAddressSet (name +:+ "_v6") v6IPs w4) as [[s6|e] w6].
  - by destruct (newOvnAddressSet (name +:+ "_v4") v4IPs w) as [[s4|e] w4].
  - by destruct (newOvnAddressSet (name +:+ "_v6") v6IPs w) as [[s6|e] w6].
  - done.
Qed.

(** X8. A handle that [NewAddressSet] returns carries the given name; its
    hashed names are those of the v4 and the v6 name for the enabled
    families and empty for the others, so with both families enabled they
    are the pair [MakeAddressSetHashNames] computes; and it has an object
    exactly for each enabled family, whose cache is the one written from
    the given IPs of that family. *)
Theorem X8_NewAddressSet_handle (name : string) (ips : list IP)
    (w : World Cmd St) (h : ovnAddressSets IP) :
  (NewAddressSet name ips w).1 = Ok h →
  GetName h = name ∧
  GetASHashNames h
  = (if IPv4Mode then hashedAddressSet (name +:+ "_v4") else "",
     if IPv6Mode then hashedAddressSet (name +:+ "_v6") else "") ∧
  (IPv4Mode = true → IPv6Mode = true →
   GetASHashNames h = MakeAddressSetHashNames name) ∧
  as_ips <$> ipv4 h
  = (if IPv4Mode
     then Some (insertIPs ∅ (filter (λ ip, ¬ IsIPv6 ip) ips)) else None) ∧
  as_ips <$> ipv6 h
  = (if IPv6Mode
     then Some (insertIPs ∅ (filter (λ ip, IsIPv6 ip) ips)) else None).
Proof.
  pose proof (NewAddressSet_run name ips w) as Hrun. cbv zeta in Hrun.
  rewrite Hrun. clear Hrun. rewrite splitIPsByFamily_filter. simpl.
  unfold GetName, GetASHashNames, MakeAddressSetHashNames, MakeAddressSetName,
    ipv4AddressSetSuffix, ipv6AddressSetSuffix.
  destruct IPv4Mode, IPv6Mode.
  - destruct (newOvnAddressSet (name +:+ "_v4") _ w) as [[s4|e] w4] eqn:H4;
      simpl; [|done].
    apply (f_equal fst) in H4. apply newOvnAddressSet_ok in H4 as ->.
    destruct (newOvnAddressSet (name +:+ "_v6") _ w4) as [[s6|e] w6] eqn:H6;
      simpl; [|done].
    apply (f_equal fst) in H6. apply newOvnAddressSet_ok in H6 as ->.
    by intros [= <-].
  - destruct (newOvnAddressSet (name +:+ "_v4") _ w) as [[s4|e] w4] eqn:H4;
      simpl; [|done].
    apply (f_equal fst) in H4. apply newOvnAddressSet_ok in H4 as ->.
    by intros [= <-].
  - destruct (newOvnAddressSet (name +:+ "_v6") _ w) as [[s6|e] w6] eqn:H6;
      simpl; [|done].
    apply (f_equal fst) in H6. apply newOvnAddressSet_ok in H6 as ->.
    by intros [= <-].
  - by intros [= <-].
Qed.

(** X9. With v4 enabled, a failed construction of the v4 object ends
    [NewAddressSet]: it returns that error and no handle, in the world the
    v4 construction left, so no call is made for v6. *)
Theorem X9_NewAddressSet_v4_failure_stops (name : string) (ips : list IP)
    (w : World Cmd St) (e : error) :
  IPv4Mode = true →
  (newOvnAddressSet (name +:+ "_v4") (splitIPsByFamily ips).1 w).1 = Err e →
  NewAddressSet name ips w
  = (Err e,
     (newOvnAddressSet (name +:+ "_v4") (splitIPsByFamily ips).1 w).2).
Proof.
  intros H4 Herr. pose proof (NewAddressSet_run name ips w) as Hrun.
  cbv zeta in Hrun. by rewrite Hrun, H4, Herr.
Qed.

(** X10. With both families enabled, when the v4 construction succeeds and
    the v6 construction, run in the world v4 left, fails, [NewAddressSet]
    returns the v6 error and no handle: the v4 object it built is not
    returned, and no call undoes what the v4 construction wrote. *)
Theorem X10_NewAddressSet_v6_failure_returns_no_handle (name : string)
    (ips : list IP) (w : World Cmd St) (s4 : ovnAddressSet IP) (e : error) :
  IPv4Mode = true → IPv6Mode = true →
  let out4 := newOvnAddressSet (name +:+ "_v4") (splitIPsByFamily ips).1 w in
  let out6 :=
    newOvnAddressSet (name +:+ "_v6") (splitIPsByFamily ips).2 out4.2 in
  out4.1 = Ok s4 → out6.1 = Err e →
  NewAddressSet name ips w = (Err e, out6.2).
Proof.
  intros H4 H6 out4 out6 Hok Herr.
  pose proof (NewAddressSet_run name ips w) as Hrun. cbv zeta in Hrun.
  rewrite Hrun, H4, H6. fold out4. rewrite Hok. fold out6. by rewrite Herr.
Qed.

(** *** [ForEachAddressSet] *)

(** X11. [ForEachAddressSet] makes one call, the listing, and leaves the
    client as the listing left it. It returns an error exactly when the
    listing fails with an error other than [ErrorSchema], and then the
    iterator function is not called. *)
Theorem X11_ForEachAddressSet_lists_once (w : World Cmd St) :
  let listing := goovn.ASList nb (nbState w) in
  let out := ForEachAddressSet w in
  calls out.2 = calls w ++ [CallASList] ∧
  nbState out.2 = listing.2 ∧
  (is_Some out.1.2 ↔ ∃ e, listing.1.2 = Some e ∧ isErrorSchema e = false) ∧
  (is_Some out.1.2 → out.1.1 = []).
Proof.
  intros listing out. subst listing out.
  unfold ForEachAddressSet, bind, ret, nb_ASList.
  destruct (goovn.ASList nb (nbState w)) as [[addrSets [e|]] s]; simpl.
  - destruct (isErrorSchema e) eqn:He; simpl;
      (split; [done|]); (split; [done|]); split.
    + split; [by intros [? ?]|]. intros (e' & [= <-] & ?). congruence.
    + by intros [? ?].
    + split; [|by eexists]. intros _. by exists e.
    + done.
  - split; [done|]. split; [done|]. split.
    + split; [by intros [? ?]|]. by intros (e' & ? & ?).
    + by intros [? ?].
Qed.

End FactoryFacts.

(** ** Dual-stack handles *)

Section DualStackFacts.

Context {IP Cmd St : Type}.
Variable IPString : IP → string.
Variable IsIPv6 : IP → bool.
Variable rangeIPs : gmap string IP → list (string * IP).
Variable nb : goovn.Client Cmd St.

#[local] Abbreviation insertIPs := (insertIPs IPString).
#[local] Abbreviation newSubset := (newSubset IPString).
#[local] Abbreviation splitIPsByFamily := (splitIPsByFamily IsIPv6).
#[local] Abbreviation setIPs := (setIPs IPString nb).
#[local] Abbreviation replaceCalls := (replaceCalls nb).
#[local] Abbreviation destroy := (destroy nb).
#[local] Abbreviation addIPs := (addIPs IPString rangeIPs nb).
#[local] Abbreviation deleteIPs := (deleteIPs IPString rangeIPs nb).
#[local] Abbreviation SetIPs := (SetIPs IPString IsIPv6 nb).
#[local] Abbreviation AddIPs := (AddIPs IPString IsIPv6 rangeIPs nb).
#[local] Abbreviation DeleteIPs := (DeleteIPs IPString IsIPv6 rangeIPs nb).
#[local] Abbreviation Destroy := (Destroy nb).

Lemma destroy_none (as_ : ovnAddressSet IP) (w : World Cmd St) :
  (destroy as_ w).1.1 = None → as_ips (destroy as_ w).1.2 = ∅.
Proof.
  pose proof (destroy_run nb as_ w) as Hrun. cbv zeta in Hrun.
  destruct (goovn.ASDel nb _ _).1 as [cmd|e].
  - destruct Hrun as [_ Hrun]. destruct (goovn.Execute nb cmd _).1.
    + destruct Hrun as [[e' ->] _]. done.
    + by destruct Hrun as [_ ->].
  - destruct Hrun as (_ & [e' ->] & _). done.
Qed.

(** X12. On a handle with both families, [Destroy] destroys the v4 object
    first. When that fails the call returns the error as it is, the v6
    object is untouched and the world is the one the v4 destroy left. When
    it succeeds, the v6 destroy runs from that world and its result is the
    result of the call, so that after a v6 failure the v4 cache is already
    empty. When the call returns no error, both caches are empty. *)
Theorem X12_Destroy_v4_then_v6 (as_ : ovnAddressSets IP)
    (s4 s6 : ovnAddressSet IP) (w : World Cmd St) :
  ipv4 as_ = Some s4 → ipv6 as_ = Some s6 →
  let out4 := destroy s4 w in
  let out6 := destroy s6 out4.2 in
  Destroy as_ w
  = match out4.1.1 with
    | Some e =>
        (Some e, {| ass_name := ass_name as_; ipv4 := Some out4.1.2;
                    ipv6 := Some s6 |}, out4.2)
    | None =>
        (out6.1.1, {| ass_name := ass_name as_; ipv4 := Some out4.1.2;
                      ipv6 := Some out6.1.2 |}, out6.2)
    end ∧
  (out4.1.1 = None → as_ips out4.1.2 = ∅) ∧
  ((Destroy as_ w).1.1 = None →
   as_ips <$> ipv4 (Destroy as_ w).1.2 = Some ∅ ∧
   as_ips <$> ipv6 (Destroy as_ w).1.2 = Some ∅).
Proof.
  intros H4 H6 out4 out6.
  assert (Heq : Destroy as_ w
    = match out4.1.1 with
      | Some e =>
          (Some e, {| ass_name := ass_name as_; ipv4 := Some out4.1.2;
                      ipv6 := Some s6 |}, out4.2)
      | None =>
          (out6.1.1, {| ass_name := ass_name as_; ipv4 := Some out4.1.2;
                        ipv6 := Some out6.1.2 |}, out6.2)
      end).
  { subst out6 out4. unfold Destroy. rewrite H4, H6. unfold bind, ret.
    destruct (destroy s4 w) as [[[e4|] s4'] w4]; simpl; [done|].
    by destruct (destroy s6 w4) as [[[e6|] s6'] w6]. }
  split; [exact Heq|]. split; [apply destroy_none|].
  rewrite Heq. pose proof (destroy_none s4 w) as Hn4. fold out4 in Hn4.
  pose proof (destroy_none s6 out4.2) as Hn6. fold out6 in Hn6.
  destruct out4.1.1; simpl; [done|]. intros Hnone.
  by rewrite Hn4, Hn6.
Qed.

(** X13. On a handle with both families, when both replaces of [SetIPs]
    return no error, so does [SetIPs], and each family caches the given
    IPs of its family and nothing else; with no IP given, both caches end
    empty. *)
Theorem X13_SetIPs_round_trip (as_ : ovnAddressSets IP)
    (s4 s6 : ovnAddressSet IP) (ips : list IP) (w : World Cmd St) :
  ipv4 as_ = Some s4 → ipv6 as_ = Some s6 →
  let out6 := setIPs s6 (splitIPsByFamily ips).2 w in
  let out4 := setIPs s4 (splitIPsByFamily ips).1 out6.2 in
  out6.1.1 = None → out4.1.1 = None →
  (SetIPs as_ ips w).1.1 = None ∧
  as_ips <$> ipv4 (SetIPs as_ ips w).1.2
  = Some (insertIPs ∅ (filter (λ ip, ¬ IsIPv6 ip) ips)) ∧
  as_ips <$> ipv6 (SetIPs as_ ips w).1.2
  = Some (insertIPs ∅ (filter (λ ip, IsIPv6 ip) ips)) ∧
  (ips = [] →
   as_ips <$> ipv4 (SetIPs as_ ips w).1.2 = Some ∅ ∧
   as_ips <$> ipv6 (SetIPs as_ ips w).1.2 = Some ∅).
Proof.
  intros H4 H6 out6 out4 Hn6 Hn4.
  assert (Hc6 : as_ips out6.1.2 = insertIPs ∅ (splitIPsByFamily ips).2).
  { pose proof (setIPs_run IPString nb s6 (splitIPsByFamily ips).2 w)
      as [_ Hres]. fold out6 in Hres. cbv zeta in Hres.
    destruct (replaceSucceeds nb s6 _ w); [by rewrite Hres|].
    destruct Hres as [[e He] _]. congruence. }
  assert (Hc4 : as_ips out4.1.2 = insertIPs ∅ (splitIPsByFamily ips).1).
  { pose proof (setIPs_run IPString nb s4 (splitIPsByFamily ips).1 out6.2)
      as [_ Hres]. fold out4 in Hres. cbv zeta in Hres.
    destruct (replaceSucceeds nb s4 _ _); [by rewrite Hres|].
    destruct Hres as [[e He] _]. congruence. }
  assert (Heq : SetIPs as_ ips w
    = (Wrapf out6.1.1 "%v" out4.1.1,
       {| ass_name := ass_name as_; ipv4 := Some out4.1.2;
          ipv6 := Some out6.1.2 |}, out4.2)).
  { subst out4 out6. unfold SetIPs.
    destruct (splitIPsByFamily ips) as [v4ips v6ips]. simpl.
    rewrite H4, H6. unfold bind, ret.
    destruct (setIPs s6 v6ips w) as [[e6 s6'] w6]. simpl.
    by destruct (setIPs s4 v4ips w6) as [[e4 s4'] w4]. }
  rewrite Heq, Hn6. simpl. rewrite Hc4, Hc6.
  rewrite (splitIPsByFamily_filter IsIPv6). simpl.
  split_and!; [done..|]. by intros ->.
Qed.

Lemma updateNames_replaceCalls (s : ovnAddressSet IP) (members : list string)
    (w : World Cmd St) :
  updateNames (replaceCalls s members w) = [as_hashName s].
Proof.
  unfold replaceCalls. by destruct (goovn.ASUpdate nb _ _ _ _).1.
Qed.

(** X14. On a handle with both families, [SetIPs] always makes the calls of
    two replaces, whatever either returns: first the v6 replace with the
    string forms of the v6 IPs, then the v4 replace with those of the v4
    IPs, from the world the v6 replace left. *)
Theorem X14_SetIPs_attempts_both_families (as_ : ovnAddressSets IP)
    (s4 s6 : ovnAddressSet IP) (ips : list IP) (w : World Cmd St) :
  ipv4 as_ = Some s4 → ipv6 as_ = Some s6 →
  let v4ips := filter (λ ip, ¬ IsIPv6 ip) ips in
  let v6ips := filter (λ ip, IsIPv6 ip) ips in
  let w6 := (setIPs s6 v6ips w).2 in
  let new := replaceCalls s6 (IPString <$> v6ips) w
             ++ replaceCalls s4 (IPString <$> v4ips) w6 in
  calls (SetIPs as_ ips w).2 = calls w ++ new ∧
  updateNames new = [as_hashName s6; as_hashName s4].
Proof.
  intros H4 H6 v4ips v6ips w6 new. split.
  - subst new w6. unfold SetIPs.
    rewrite (splitIPsByFamily_filter IsIPv6). fold v4ips v6ips.
    rewrite H4, H6. unfold bind, ret.
    pose proof (setIPs_run IPString nb s6 v6ips w) as [Hc6 _].
    destruct (setIPs s6 v6ips w) as [[e6 s6'] w6]. simpl in Hc6 |- *.
    pose proof (setIPs_run IPString nb s4 v4ips w6) as [Hc4 _].
    destruct (setIPs s4 v4ips w6) as [[e4 s4'] w4]. simpl in Hc4 |- *.
    by rewrite Hc4, Hc6, <- app_assoc.
  - subst new. unfold updateNames. rewrite omap_app.
    fold (updateNames (replaceCalls s6 (IPString <$> v6ips) w)).
    fold (updateNames (replaceCalls s4 (IPString <$> v4ips) w6)).
    by rewrite !updateNames_replaceCalls.
Qed.

(** What a dual-stack operation may change of a handle: nothing but the
    caches of the objects it has. *)
Definition sameIdentity (a b : ovnAddressSets IP) : Prop :=
  ass_name a = ass_name b ∧
  as_hashName <$> ipv4 a = as_hashName <$> ipv4 b ∧
  as_hashName <$> ipv6 a = as_hashName <$> ipv6 b.

Lemma sameIdentity_build (as_ : ovnAddressSets IP)
    (v4 v6 : option (ovnAddressSet IP)) :
  as_hashName <$> v4 = as_hashName <$> ipv4 as_ →
  as_hashName <$> v6 = as_hashName <$> ipv6 as_ →
  sameIdentity {| ass_name := ass_name as_; ipv4 := v4; ipv6 := v6 |} as_.
Proof. by intros ??. Qed.

Lemma sameIdentity_spec (a b : ovnAddressSets IP) :
  sameIdentity a b →
  GetName a = GetName b ∧ GetASHashNames a = GetASHashNames b ∧
  (ipv4 a = None ↔ ipv4 b = None) ∧ (ipv6 a = None ↔ ipv6 b = None).
Proof.
  unfold GetName, GetASHashNames. intros (Hn & H4 & H6).
  destruct (ipv4 a), (ipv4 b), (ipv6 a), (ipv6 b); simpl in *;
    intuition congruence.
Qed.

(** X15. [SetIPs], [AddIPs], [DeleteIPs] and [Destroy] leave the name of a
    handle and its two hashed names as they were, whatever the client
    answers, and a family the handle does not have stays absent. *)
Theorem X15_operations_keep_handle_identity (as_ : ovnAddressSets IP)
    (ips : list IP) (w : World Cmd St) :
  let same (out : option error * ovnAddressSets IP * World Cmd St) :=
    GetName out.1.2 = GetName as_ ∧
    GetASHashNames out.1.2 = GetASHashNames as_ ∧
    (ipv4 out.1.2 = None ↔ ipv4 as_ = None) ∧
    (ipv6 out.1.2 = None ↔ ipv6 as_ = None) in
  same (SetIPs as_ ips w) ∧ same (AddIPs as_ ips w) ∧
  same (DeleteIPs as_ ips w) ∧ same (Destroy as_ w).
Proof.
  intros same. subst same. cbv beta.
  assert (Hid : ∀ s l w',
    as_hashName (setIPs s l w').1.2 = as_hashName s ∧
    as_hashName (addIPs s l w').1.2 = as_hashName s ∧
    as_hashName (deleteIPs s l w').1.2 = as_hashName s ∧
    as_hashName (destroy s w').1.2 = as_hashName s).
  { intros s l w'.
    pose proof (perFamily_identity IPString nb rangeIPs s l w') as H.
    cbv zeta beta in H. tauto. }
  assert (Hrefl : sameIdentity as_ as_) by done.
  assert (Hset : sameIdentity (SetIPs as_ ips w).1.2 as_).
  { unfold SetIPs. destruct (splitIPsByFamily ips) as [v4ips v6ips].
    unfold bind, ret.
    destruct (ipv6 as_) as [s6|] eqn:H6, (ipv4 as_) as [s4|] eqn:H4.
    - pose proof (Hid s6 v6ips w) as (I6 & _).
      destruct (setIPs s6 v6ips w) as [[e6 s6'] w6]. simpl in *.
      pose proof (Hid s4 v4ips w6) as (I4 & _).
      destruct (setIPs s4 v4ips w6) as [[e4 s4'] w4]. simpl in *.
      apply sameIdentity_build; rewrite ?H4, ?H6; simpl; congruence.
    - pose proof (Hid s6 v6ips w) as (I6 & _).
      destruct (setIPs s6 v6ips w) as [[e6 s6'] w6]. simpl in *.
      apply sameIdentity_build; rewrite ?H4, ?H6; simpl; congruence.
    - simpl. pose proof (Hid s4 v4ips w) as (I4 & _).
      destruct (setIPs s4 v4ips w) as [[e4 s4'] w4]. simpl in *.
      apply sameIdentity_build; rewrite ?H4, ?H6; simpl; congruence.
    - simpl. apply sameIdentity_build; by rewrite ?H4, ?H6. }
  assert (Hadd : sameIdentity (AddIPs as_ ips w).1.2 as_).
  { unfold AddIPs. case_decide; [done|].
    destruct (splitIPsByFamily ips) as [v4ips v6ips]. unfold bind, ret.
    destruct (ipv6 as_) as [s6|] eqn:H6.
    - pose proof (Hid s6 v6ips w) as (_ & I6 & _).
      destruct (addIPs s6 v6ips w) as [[[e6|] s6'] w6]; simpl in *.
      { apply sameIdentity_build; rewrite ?H6; simpl; congruence. }
      destruct (ipv4 as_) as [s4|] eqn:H4.
      + pose proof (Hid s4 v4ips w6) as (_ & I4 & _).
        destruct (addIPs s4 v4ips w6) as [[[e4|] s4'] w4]; simpl in *;
          apply sameIdentity_build; rewrite ?H4, ?H6; simpl; congruence.
      + simpl. apply sameIdentity_build; rewrite ?H4, ?H6; simpl; congruence.
    - simpl. destruct (ipv4 as_) as [s4|] eqn:H4.
      + pose proof (Hid s4 v4ips w) as (_ & I4 & _).
        destruct (addIPs s4 v4ips w) as [[[e4|] s4'] w4]; simpl in *;
          apply sameIdentity_build; rewrite ?H4, ?H6; simpl; congruence.
      + simpl. apply sameIdentity_build; by rewrite ?H4, ?H6. }
  assert (Hdel : sameIdentity (DeleteIPs as_ ips w).1.2 as_).
  { unfold DeleteIPs. case_decide; [done|].
    destruct (splitIPsByFamily ips) as [v4ips v6ips]. unfold bind, ret.
    destruct (ipv6 as_) as [s6|] eqn:H6.
    - pose proof (Hid s6 v6ips w) as (_ & _ & I6 & _).
      destruct (deleteIPs s6 v6ips w) as [[[e6|] s6'] w6]; simpl in *.
      { apply sameIdentity_build; rewrite ?H6; simpl; congruence. }
      destruct (ipv4 as_) as [s4|] eqn:H4.
      + pose proof (Hid s4 v4ips w6) as (_ & _ & I4 & _).
        destruct (deleteIPs s4 v4ips w6) as [[[e4|] s4'] w4]; simpl in *;
          apply sameIdentity_build; rewrite ?H4, ?H6; simpl; congruence.
      + simpl. apply sameIdentity_build; rewrite ?H4, ?H6; simpl; congruence.
    - simpl. destruct (ipv4 as_) as [s4|] eqn:H4.
      + pose proof (Hid s4 v4ips w) as (_ & _ & I4 & _).
        destruct (deleteIPs s4 v4ips w) as [[[e4|] s4'] w4]; simpl in *;
          apply sameIdentity_build; rewrite ?H4, ?H6; simpl; congruence.
      + simpl. apply sameIdentity_build; by rewrite ?H4, ?H6. }
  assert (Hdes : sameIdentity (Destroy as_ w).1.2 as_).
  { unfold Destroy. unfold bind, ret.
    destruct (ipv4 as_) as [s4|] eqn:H4.
    - pose proof (Hid s4 [] w) as (_ & _ & _ & I4).
      destruct (destroy s4 w) as [[[e4|] s4'] w4]; simpl in *.
      { apply sameIdentity_build; rewrite ?H4; simpl; congruence. }
      destruct (ipv6 as_) as [s6|] eqn:H6.
      + pose proof (Hid s6 [] w4) as (_ & _ & _ & I6).
        destruct (destroy s6 w4) as [[[e6|] s6'] w6]; simpl in *;
          apply sameIdentity_build; rewrite ?H4, ?H6; simpl; congruence.
      + simpl. apply sameIdentity_build; rewrite ?H4, ?H6; simpl; congruence.
    - simpl. destruct (ipv6 as_) as [s6|] eqn:H6.
      + pose proof (Hid s6 [] w) as (_ & _ & _ & I6).
        destruct (destroy s6 w) as [[[e6|] s6'] w6]; simpl in *;
          apply sameIdentity_build; rewrite ?H4, ?H6; simpl; congruence.
      + simpl. apply sameIdentity_build; by rewrite ?H4, ?H6. }
  split_and!; by apply sameIdentity_spec.
Qed.

Lemma addIPs_nothing_new (s : ovnAddressSet IP) (l : list IP)
    (w : World Cmd St) :
  (∀ ip, ip ∈ l → IPString ip ∈ dom (as_ips s)) →
  addIPs s l w = (None, s, w).
Proof.
  intros Hin. pose proof (addIPs_run IPString nb rangeIPs s l w) as Hrun.
  cbv zeta in Hrun. rewrite decide_True in Hrun; [done|].
  apply newSubset_nil. intros k [ip [-> Hip]]%elem_of_list_to_set%list_elem_of_fmap.
  by apply Hin.
Qed.

(** X16. [AddIPs] returns no error, makes no call and leaves the handle as
    it was when each given IP is either already in the cache of the object
    of its family or of a family the handle does not have. *)
Theorem X16_AddIPs_noop_when_nothing_new (as_ : ovnAddressSets IP)
    (ips : list IP) (w : World Cmd St) :
  (∀ ip, ip ∈ ips →
     match (if IsIPv6 ip then ipv6 as_ else ipv4 as_) with
     | Some s => IPString ip ∈ dom (as_ips s)
     | None => True
     end) →
  AddIPs as_ ips w = (None, as_, w).
Proof.
  intros Hin. unfold AddIPs. case_decide; [done|].
  rewrite (splitIPsByFamily_filter IsIPv6). unfold bind, ret.
  destruct as_ as [name v4 v6]. simpl in *.
  assert (H6 : ∀ s6, v6 = Some s6 →
            addIPs s6 (filter (λ ip, IsIPv6 ip) ips) w = (None, s6, w)).
  { intros s6 ->. apply addIPs_nothing_new.
    intros ip [Hv6 Hip]%list_elem_of_filter. specialize (Hin ip Hip).
    by destruct (IsIPv6 ip). }
  assert (H4 : ∀ s4, v4 = Some s4 →
            addIPs s4 (filter (λ ip, ¬ IsIPv6 ip) ips) w = (None, s4, w)).
  { intros s4 ->. apply addIPs_nothing_new.
    intros ip [Hv6 Hip]%list_elem_of_filter. specialize (Hin ip Hip).
    by destruct (IsIPv6 ip). }
  destruct v6 as [s6|]; [rewrite (H6 s6 eq_refl)|]; simpl;
    (destruct v4 as [s4|]; [rewrite (H4 s4 eq_refl)|]); done.
Qed.

(** X17. On a handle with a v6 object, [AddIPs] with IPs that are all v6
    is the [addIPs] of that object with the whole list: its error comes
    back wrapped, and whether the handle has a v4 object or not, nothing
    is called for v4 and that object is as it was. *)
Theorem X17_AddIPs_v6_only_leaves_v4 (as_ : ovnAddressSets IP)
    (s6 : ovnAddressSet IP) (ips : list IP) (w : World Cmd St) :
  ipv6 as_ = Some s6 → Forall (λ ip, IsIPv6 ip = true) ips →
  let out6 := addIPs s6 ips w in
  AddIPs as_ ips w
  = (familyError "v6" out6.1.1,
     {| ass_name := ass_name as_; ipv4 := ipv4 as_; ipv6 := Some out6.1.2 |},
     out6.2).
Proof.
  intros H6 Hall out6. subst out6.
  destruct as_ as [name v4 v6]. simpl in H6. subst v6. simpl.
  unfold AddIPs. case_decide as Hlen.
  { apply nil_length_inv in Hlen as ->. done. }
  rewrite (splitIPsByFamily_filter IsIPv6). simpl.
  assert (Hv6 : filter (λ ip, IsIPv6 ip) ips = ips).
  { clear Hlen. induction Hall as [|ip l Hip _ IH]; [done|].
    rewrite filter_cons, decide_True by (by rewrite Hip). by rewrite IH. }
  assert (Hv4 : filter (λ ip, ¬ IsIPv6 ip) ips = []).
  { clear Hlen Hv6. induction Hall as [|ip l Hip _ IH]; [done|].
    rewrite filter_cons, decide_False; [done|]. rewrite Hip. by intros []. }
  rewrite Hv6, Hv4. unfold bind, ret.
  destruct (addIPs s6 ips w) as [[[e6|] s6'] w6]; simpl; [done|].
  by destruct v4 as [s4|].
Qed.

End DualStackFacts.

(** ** Splitting names and joining IPs *)

Section SplitFacts.

Lemma app_empty_r_string (s : string) : s +:+ "" = s.
Proof.
  induction s as [|a s IH]; [done|]. by rewrite app_String, IH.
Qed.

Lemma rev_app_rev_app (s a b : string) :
  String.rev_app (String.rev_app s a) b = String.rev_app a (s +:+ b).
Proof.
  revert a b. induction s as [|c s IH]; intros a b; [done|].
  simpl. by rewrite IH.
Qed.

Lemma rev_rev_app (s : string) : String.rev (String.rev_app s "") = s.
Proof.
  unfold String.rev. rewrite rev_app_rev_app. simpl.
  apply app_empty_r_string.
Qed.

Lemma noDot_cons c s : noDot (String c s) ↔ c ≠ "."%char ∧ noDot s.
Proof. unfold noDot. simpl. apply (Forall_cons (λ a, a ≠ "."%char)). Qed.

Lemma Split_go_step (sep cur : string) c (s : string) :
  strings.Split_go sep 0 cur (String c s)
  = if String.prefix sep (String c s)
    then String.rev cur :: strings.Split_go sep (String.length sep - 1) "" s
    else strings.Split_go sep 0 (String c cur) s.
Proof. reflexivity. Qed.

Lemma prefix_dot c (s : string) :
  String.prefix "." (String c s) = if ascii_dec "." c then true else false.
Proof. cbn [String.prefix]. by destruct (ascii_dec "." c), s. Qed.

Lemma Split_go_noDot (s cur t : string) :
  noDot s →
  strings.Split_go "." 0 cur (s +:+ t)
  = strings.Split_go "." 0 (String.rev_app s cur) t.
Proof.
  revert cur. induction s as [|c s IH]; intros cur Hs; [done|].
  apply noDot_cons in Hs as [Hc Hs].
  rewrite app_String, Split_go_step, prefix_dot.
  destruct (ascii_dec "." c) as [<-|_]; [done|]. by apply IH.
Qed.

Lemma Split_go_dot (cur t : string) :
  strings.Split_go "." 0 cur (String "." t)
  = String.rev cur :: strings.Split_go "." 0 "" t.
Proof.
  rewrite Split_go_step, prefix_dot. by destruct (ascii_dec "." ".").
Qed.

(** A string without ["."] is the one piece of its split. *)
Lemma Split_noDot (s : string) : noDot s → strings.Split s "." = [s].
Proof.
  intros Hs. unfold strings.Split.
  rewrite <- (app_empty_r_string s) at 1.
  rewrite Split_go_noDot by done. simpl. by rewrite rev_rev_app.
Qed.

(** Up to its first ["."], a string is the first piece of its split, and
    the rest is split on its own. *)
Lemma Split_first_dot (s t : string) :
  noDot s →
  strings.Split (s +:+ "." +:+ t) "." = s :: strings.Split t ".".
Proof.
  intros Hs. unfold strings.Split. rewrite Split_go_noDot by done.
  change ("." +:+ t) with (String "." t).
  by rewrite Split_go_dot, rev_rev_app.
Qed.

Lemma truncate_family (n fam : string) :
  fam = "_v4" ∨ fam = "_v6" → truncateSuffixFromAddressSet (n +:+ fam) = n.
Proof.
  unfold truncateSuffixFromAddressSet, ipv4AddressSetSuffix,
    ipv6AddressSetSuffix.
  intros [-> | ->].
  - by rewrite HasSuffix_app, TrimSuffix_app.
  - rewrite HasSuffix_app_other by done.
    by rewrite HasSuffix_app, TrimSuffix_app.
Qed.

Context {Cmd St : Type}.
Variable nb : goovn.Client Cmd St.

(** X18. When the first record of a successful listing is named by a
    family name, [ForEachAddressSet] calls the iterator function with the
    name without the family suffix, and with its pieces: for a name
    without ["."], the name itself as namespace and an empty suffix; for a
    name of a namespace, a ["."] and a suffix, possibly followed by
    further dotted pieces, the namespace and that first suffix. *)
Theorem X18_ForEachAddressSet_namespace_and_suffix (w : World Cmd St)
    (r : goovn.AddressSet) (l : list goovn.AddressSet)
    (ns sfx more fam : string) :
  (goovn.ASList nb (nbState w)).1 = (r :: l, None) →
  noDot ns → noDot sfx → more = "" ∨ (∃ t, more = "." +:+ t) →
  fam = "_v4" ∨ fam = "_v6" →
  (goovn.ExternalID r !! "name" = Some (goovn.IString (ns +:+ fam)) →
   (ForEachAddressSet nb w).1
   = ([ {| visit_name := ns; visit_namespace := ns; visit_suffix := "" |} ],
      None)) ∧
  (goovn.ExternalID r !! "name"
   = Some (goovn.IString ((ns +:+ "." +:+ sfx +:+ more) +:+ fam)) →
   (ForEachAddressSet nb w).1
   = ([ {| visit_name := ns +:+ "." +:+ sfx +:+ more;
           visit_namespace := ns; visit_suffix := sfx |} ],
      None)).
Proof.
  intros Hlist Hns Hsfx Hmore Hfam.
  assert (Hrun : (ForEachAddressSet nb w).1 = (forEachLoop ∅ (r :: l), None)).
  { unfold ForEachAddressSet, bind, ret, nb_ASList.
    destruct (goovn.ASList nb (nbState w)) as [[addrSets err] s].
    simpl in Hlist. by injection Hlist as -> ->. }
  rewrite Hrun, forEachLoop_firstNamed. simpl. split.
  - intros ->. unfold visitOf. rewrite truncate_family by done.
    by rewrite Split_noDot.
  - intros ->. unfold visitOf. rewrite truncate_family by done.
    rewrite Split_first_dot by done.
    destruct Hmore as [->|[t ->]].
    + by rewrite app_empty_r_string, Split_noDot.
    + by rewrite Split_first_dot.
Qed.

End SplitFacts.

Section JoinFacts.

Context {IP : Type}.
Variable IPString : IP → string.

#[local] Abbreviation joinIPs := (joinIPs IPString).

(** X19. [joinIPs] does not depend on the order of the IPs: two lists that
    are rearrangements of each other are joined to the same string. *)
Theorem X19_joinIPs_order_independent (ips1 ips2 : list IP) :
  ips1 ≡ₚ ips2 → joinIPs ips1 = joinIPs ips2.
Proof.
  intros Hperm. unfold joinIPs. rewrite !foldl_snoc_map, !app_nil_l.
  f_equal. apply (Sorted_unique String.le).
  - apply Sorted_merge_sort, _.
  - apply Sorted_merge_sort, _.
  - by rewrite !merge_sort_Permutation, Hperm.
Qed.

End JoinFacts.

(** ** Runs of the further properties *)

(** The world of the client that is down, with no call made yet. *)
Definition downWorld : World unit unit := {| calls := []; nbState := tt |}.

Definition connectionRefused : error := ClientError "connection refused".
Definition transactionFailed : error := ClientError "transaction failed".

(** A run of [DestroyAddressSetInBackingStore] in which the second delete
    fails in its execution: the call returns the error of the v4 name, has
    asked to delete the raw and the v4 name alone, and the row of the v6
    name is still in the table. *)
Example DestroyAddressSetInBackingStore_stops_at_v4 :
  let w := fake.world [fake.row "ans" [] (nameOf "ns");
                       fake.row "ans_v4" [] (nameOf "ns_v4");
                       fake.row "ans_v6" [] (nameOf "ns_v6")]
                      [None; Some transactionFailed] in
  let out := DestroyAddressSetInBackingStore fake.HashForOVN fake.nb "ns" w in
  out.1 = Some (Errorf "failed to destroy address set %q: %v"
                       ["ans_v4"] transactionFailed) ∧
  calls out.2 = [CallASDel "ans"; CallExecute (fake.DelCmd "ans");
                 CallASDel "ans_v4"; CallExecute (fake.DelCmd "ans_v4")] ∧
  goovn.Name <$> fake.rows (nbState out.2) = ["ans_v4"; "ans_v6"].
Proof. vm_compute. split_and!; reflexivity. Qed.

(** X2 at a concrete input: the starting cache is well-formed, and so are
    the caches the four operations leave. *)
Lemma X2_cache_wf_witness :
  cache_wf fake.IPString (as_ips v4TwoMembers) ∧
  cache_wf fake.IPString
    (as_ips (deleteIPs fake.IPString fake.rangeIPs fake.nb v4TwoMembers
               [fake.v4addr "10.0.0.3"] storeTwoMembers).1.2).
Proof.
  split; [apply family_wf|].
  apply (X2_operations_keep_cache_wf fake.IPString fake.nb fake.rangeIPs
           v4TwoMembers [fake.v4addr "10.0.0.3"] storeTwoMembers
           (family_wf _ _)).
Defined.

(** X3 at a concrete input: a replace with 10.0.0.9 given twice succeeds,
    and the cache holds 10.0.0.9 under its string form. *)
Lemma X3_last_duplicate_witness :
  let ips := [fake.v4addr "10.0.0.9"; fake.v4addr "10.0.0.9"] in
  let out := setIPs fake.IPString fake.nb v4One ips (fake.world dualRows []) in
  out.1.1 = None ∧
  as_ips out.1.2 !! "10.0.0.9" = Some (fake.v4addr "10.0.0.9").
Proof.
  intros ips out.
  assert (Hok : out.1.1 = None) by (vm_compute; reflexivity).
  split; [exact Hok|]. subst out.
  rewrite (X3_setIPs_keeps_last_duplicate fake.IPString fake.nb v4One ips
             (fake.world dualRows []) "10.0.0.9" Hok).
  vm_compute. reflexivity.
Defined.

(** X4 at a concrete input: the hypotheses hold, and [allIPs] returns two
    IPs for the cache of two. *)
Lemma X4_allIPs_witness :
  (∀ m : gmap string fake.IP, fake.rangeIPs m ≡ₚ map_to_list m) ∧
  cache_wf fake.IPString (as_ips v4TwoMembers) ∧
  length (allIPs fake.rangeIPs v4TwoMembers) = 2.
Proof.
  split; [reflexivity|]. split; [apply family_wf|].
  destruct (X4_allIPs_enumerates_cache fake.IPString fake.rangeIPs
              (λ m, reflexivity (map_to_list m)) v4TwoMembers
              (family_wf _ _)) as (_ & _ & _ & Hlen).
  rewrite Hlen. vm_compute. reflexivity.
Defined.

(** X7 at a concrete input: the client is down, so the lookup fails with an
    error that is neither sentinel, and construction fails after that one
    call. *)
Lemma X7_lookup_error_witness :
  let out :=
    newOvnAddressSet fake.IPString fake.HashForOVN downClient "ns_v4"
                     [fake.v4addr "10.0.0.1"] downWorld in
  (goovn.ASGet downClient (fake.HashForOVN "ns_v4") (nbState downWorld)).1
  = Some connectionRefused ∧
  isErrorNotFound connectionRefused = false ∧
  isErrorSchema connectionRefused = false ∧
  out.1 = Err (Errorf "failed to get address set %q: %v" ["ns_v4"]
                      connectionRefused) ∧
  calls out.2 = [CallASGet "ans_v4"].
Proof.
  intros out. split; [reflexivity|]. split; [reflexivity|].
  split; [reflexivity|].
  apply (X7_newOvnAddressSet_lookup_error_is_fatal fake.IPString
           fake.HashForOVN downClient "ns_v4" [fake.v4addr "10.0.0.1"]
           downWorld connectionRefused eq_refl eq_refl eq_refl).
Defined.

(** X8 at a concrete input: with both families enabled, construction on an
    empty store returns the handle of the runs above, and its hashed names
    are those of the two family names. *)
Lemma X8_handle_witness :
  let new :=
    NewAddressSet fake.IPString fake.IsIPv6 fake.HashForOVN true true
                  fake.nb "ns" [fake.v4addr "10.0.0.1"] (fake.world [] []) in
  new.1 = Ok dualNs ∧ GetASHashNames dualNs = ("ans_v4", "ans_v6").
Proof.
  intros new.
  assert (Hok : new.1 = Ok dualNs) by (vm_compute; reflexivity).
  split; [exact Hok|].
  destruct (X8_NewAddressSet_handle fake.IPString fake.IsIPv6
              fake.HashForOVN fake.nb true true "ns"
              [fake.v4addr "10.0.0.1"] (fake.world [] []) dualNs Hok)
    as (_ & Hhash & _).
  exact Hhash.
Defined.

(** X9 at a concrete input: the client is down, the v4 construction fails
    on its lookup, and [NewAddressSet] returns that error after that one
    call. *)
Lemma X9_v4_failure_witness :
  let e := Errorf "failed to get address set %q: %v" ["ns_v4"]
                  connectionRefused in
  let ips := [fake.v4addr "10.0.0.1"; fake.v6addr "fd00::1"] in
  let out :=
    NewAddressSet fake.IPString fake.IsIPv6 fake.HashForOVN true true
                  downClient "ns" ips downWorld in
  (newOvnAddressSet fake.IPString fake.HashForOVN downClient "ns_v4"
                    (splitIPsByFamily fake.IsIPv6 ips).1 downWorld).1 = Err e ∧
  out.1 = Err e ∧ calls out.2 = [CallASGet "ans_v4"].
Proof.
  intros e ips out. split; [reflexivity|]. subst out.
  rewrite (X9_NewAddressSet_v4_failure_stops fake.IPString fake.IsIPv6
             fake.HashForOVN downClient true true "ns" ips downWorld e
             eq_refl eq_refl).
  split; reflexivity.
Defined.

(** X10 at a concrete input: on an empty store the v4 create succeeds and
    the execution of the v6 create fails; [NewAddressSet] returns the v6
    error, and the store keeps the v4 set that was created. *)
Lemma X10_v6_failure_witness :
  let e := Errorf "failed to create address set %q: %v" ["/ns_v6/ans_v6"]
                  transactionFailed in
  let ips := [fake.v4addr "10.0.0.1"] in
  let w := fake.world [] [None; Some transactionFailed] in
  let out4 :=
    newOvnAddressSet fake.IPString fake.HashForOVN fake.nb "ns_v4"
                     (splitIPsByFamily fake.IsIPv6 ips).1 w in
  let out6 :=
    newOvnAddressSet fake.IPString fake.HashForOVN fake.nb "ns_v6"
                     (splitIPsByFamily fake.IsIPv6 ips).2 out4.2 in
  let out :=
    NewAddressSet fake.IPString fake.IsIPv6 fake.HashForOVN true true
                  fake.nb "ns" ips w in
  out4.1 = Ok v4One ∧ out6.1 = Err e ∧
  out.1 = Err e ∧
  fake.rows (nbState out.2)
  = [fake.row "ans_v4" ["10.0.0.1"] (nameOf "ns_v4")].
Proof.
  intros e ips w out4 out6 out.
  assert (H4 : out4.1 = Ok v4One) by (vm_compute; reflexivity).
  assert (H6 : out6.1 = Err e) by (vm_compute; reflexivity).
  split; [exact H4|]. split; [exact H6|]. subst out.
  rewrite (X10_NewAddressSet_v6_failure_returns_no_handle fake.IPString
             fake.IsIPv6 fake.HashForOVN fake.nb true true "ns" ips w
             v4One e eq_refl eq_refl H4 H6).
  split; [reflexivity|]. vm_compute. reflexivity.
Defined.

(** X12 at a concrete input: the v4 delete runs, the execution of the v6
    delete fails; [Destroy] returns an error, the v4 cache is empty and the
    v6 object still caches what it did. *)
Lemma X12_Destroy_witness :
  let s6 := fake.family "ns_v6" [fake.v6addr "fd00::1"] in
  let handle := {| ass_name := "ns"; ipv4 := Some v4One; ipv6 := Some s6 |} in
  let w := fake.world
             [fake.row "ans_v4" ["10.0.0.1"] (nameOf "ns_v4");
              fake.row "ans_v6" ["fd00::1"] (nameOf "ns_v6")]
             [None; Some transactionFailed] in
  let out := Destroy fake.nb handle w in
  ipv4 handle = Some v4One ∧ ipv6 handle = Some s6 ∧
  is_Some out.1.1 ∧
  dom ∘ as_ips <$> ipv4 out.1.2 = Some ∅ ∧
  dom ∘ as_ips <$> ipv6 out.1.2 = Some {[ "fd00::1" ]} ∧
  fake.rows (nbState out.2)
  = [fake.row "ans_v6" ["fd00::1"] (nameOf "ns_v6")].
Proof.
  intros s6 handle w out. split; [reflexivity|]. split; [reflexivity|].
  subst out.
  destruct (X12_Destroy_v4_then_v6 fake.nb handle v4One s6 w
              eq_refl eq_refl) as [-> _].
  vm_compute. split_and!; try reflexivity. by eexists.
Defined.

(** X13 at a concrete input: both replaces succeed, [SetIPs] returns no
    error and each family caches the IP of its family. *)
Lemma X13_SetIPs_witness :
  let ips := [fake.v4addr "10.0.0.2"; fake.v6addr "fd00::2"] in
  let w := fake.world dualRows [] in
  let out6 := setIPs fake.IPString fake.nb v6None
                     (splitIPsByFamily fake.IsIPv6 ips).2 w in
  let out4 := setIPs fake.IPString fake.nb v4One
                     (splitIPsByFamily fake.IsIPv6 ips).1 out6.2 in
  let out := SetIPs fake.IPString fake.IsIPv6 fake.nb dualNs ips w in
  out6.1.1 = None ∧ out4.1.1 = None ∧
  out.1.1 = None ∧
  as_ips <$> ipv4 out.1.2
  = Some (insertIPs fake.IPString ∅ [fake.v4addr "10.0.0.2"]) ∧
  as_ips <$> ipv6 out.1.2
  = Some (insertIPs fake.IPString ∅ [fake.v6addr "fd00::2"]).
Proof.
  intros ips w out6 out4 out.
  assert (H6 : out6.1.1 = None) by (vm_compute; reflexivity).
  assert (H4 : out4.1.1 = None) by (vm_compute; reflexivity).
  split; [exact H6|]. split; [exact H4|].
  destruct (X13_SetIPs_round_trip fake.IPString fake.IsIPv6 fake.nb dualNs
              v4One v6None ips w eq_refl eq_refl H6 H4)
    as (Hnone & Hv4 & Hv6 & _).
  split; [exact Hnone|]. split; [exact Hv4|exact Hv6].
Defined.

(** X14 at a concrete input: the execution of the v6 update fails, and the
    v4 update is still built after it. *)
Lemma X14_SetIPs_both_witness :
  let ips := [fake.v4addr "10.0.0.2"; fake.v6addr "fd00::2"] in
  let w := fake.world dualRows [Some transactionFailed] in
  let out := SetIPs fake.IPString fake.IsIPv6 fake.nb dualNs ips w in
  ipv4 dualNs = Some v4One ∧ ipv6 dualNs = Some v6None ∧
  is_Some out.1.1 ∧
  updateNames (calls out.2) = ["ans_v6"; "ans_v4"].
Proof.
  intros ips w out. split; [reflexivity|]. split; [reflexivity|].
  split; [vm_compute; by eexists|]. subst out.
  destruct (X14_SetIPs_attempts_both_families fake.IPString fake.IsIPv6
              fake.nb dualNs v4One v6None ips w eq_refl eq_refl)
    as [-> Hnames].
  exact Hnames.
Defined.

(** X16 at a concrete input: on a handle with the v4 object alone, adding
    10.0.0.1, which is cached, and a v6 address, for which there is no
    object, makes no call and returns no error. *)
Lemma X16_AddIPs_noop_witness :
  let ips := [fake.v4addr "10.0.0.1"; fake.v6addr "fd00::1"] in
  let w := fake.world dualRows [] in
  (∀ ip, ip ∈ ips →
     match (if fake.IsIPv6 ip then ipv6 v4OnlyNs else ipv4 v4OnlyNs) with
     | Some s => fake.IPString ip ∈ dom (as_ips s)
     | None => True
     end) ∧
  AddIPs fake.IPString fake.IsIPv6 fake.rangeIPs fake.nb v4OnlyNs ips w
  = (None, v4OnlyNs, w).
Proof.
  intros ips w.
  assert (Hin : ∀ ip, ip ∈ ips →
     match (if fake.IsIPv6 ip then ipv6 v4OnlyNs else ipv4 v4OnlyNs) with
     | Some s => fake.IPString ip ∈ dom (as_ips s)
     | None => True
     end).
  { intros ip [->|[->|[]%elem_of_nil]%elem_of_cons]%elem_of_cons.
    - apply (bool_decide_unpack _). vm_compute. exact I.
    - exact I. }
  split; [exact Hin|].
  apply (X16_AddIPs_noop_when_nothing_new fake.IPString fake.IsIPv6
           fake.rangeIPs fake.nb v4OnlyNs ips w Hin).
Defined.

(** X17 at a concrete input: adding one v6 address to the dual-stack handle
    makes the calls of one v6 replace and leaves the v4 object. *)
Lemma X17_AddIPs_v6_witness :
  let ips := [fake.v6addr "fd00::2"] in
  let w := fake.world dualRows [] in
  let out := AddIPs fake.IPString fake.IsIPv6 fake.rangeIPs fake.nb
                    dualNs ips w in
  ipv6 dualNs = Some v6None ∧
  Forall (λ ip, fake.IsIPv6 ip = true) ips ∧
  out.1.1 = None ∧ ipv4 out.1.2 = Some v4One ∧
  updateNames (calls out.2) = ["ans_v6"] ∧
  dom ∘ as_ips <$> ipv6 out.1.2 = Some {[ "fd00::2" ]}.
Proof.
  intros ips w out.
  assert (Hall : Forall (λ ip, fake.IsIPv6 ip = true) ips).
  { apply Forall_cons_2; [reflexivity|apply Forall_nil_2]. }
  split; [reflexivity|]. split; [exact Hall|]. subst out.
  rewrite (X17_AddIPs_v6_only_leaves_v4 fake.IPString fake.IsIPv6
             fake.rangeIPs fake.nb dualNs v6None ips w eq_refl Hall).
  vm_compute. split_and!; reflexivity.
Defined.

(** X18 at a concrete input: the one record of the listing is named
    ["ns1.egress_v4"], and the iterator function is called with
    ["ns1.egress"], ["ns1"] and ["egress"]. *)
Lemma X18_namespace_witness :
  let r := fake.row "ans1.egress_v4" [] (nameOf "ns1.egress_v4") in
  let w := fake.world [r] [] in
  (goovn.ASList fake.nb (nbState w)).1 = ([r], None) ∧
  noDot "ns1" ∧ noDot "egress" ∧
  (ForEachAddressSet fake.nb w).1
  = ([ {| visit_name := "ns1.egress"; visit_namespace := "ns1";
          visit_suffix := "egress" |} ], None).
Proof.
  intros r w.
  assert (Hns : noDot "ns1").
  { apply (bool_decide_unpack _). vm_compute. exact I. }
  assert (Hsfx : noDot "egress").
  { apply (bool_decide_unpack _). vm_compute. exact I. }
  split; [reflexivity|]. split; [exact Hns|]. split; [exact Hsfx|].
  apply (X18_ForEachAddressSet_namespace_and_suffix fake.nb w r []
           "ns1" "egress" "" "_v4" eq_refl Hns Hsfx
           (or_introl eq_refl) (or_introl eq_refl)).
  vm_compute. reflexivity.
Defined.

(** X19 at a concrete input: two IPs in either order are joined to the
    same string. *)
Lemma X19_joinIPs_witness :
  let a := fake.v4addr "10.0.0.2" in
  let b := fake.v4addr "10.0.0.1" in
  [a; b] ≡ₚ [b; a] ∧
  joinIPs fake.IPString [a; b] = joinIPs fake.IPString [b; a].
Proof.
  intros a b. split; [apply perm_swap|].
  apply (X19_joinIPs_order_independent fake.IPString), perm_swap.
Defined.

(** The joined string of the run above: quoted, sorted, separated by a
    blank. *)
Example joinIPs_sorted :
  String.length
    (joinIPs fake.IPString [fake.v4addr "10.0.0.2"; fake.v4addr "10.0.0.1"])
  = 21 ∧
  String.substring 1 8
    (joinIPs fake.IPString [fake.v4addr "10.0.0.2"; fake.v4addr "10.0.0.1"])
  = "10.0.0.1".
Proof. vm_compute. split; reflexivity. Qed.
